(** * diary.py: the tag-selection session of the diary bot

    A shallow embedding of [src/diary.py].  The three asynchronous handlers
    ([handle_text], [handle_audio], [button_handler]) and the two helpers
    ([build_keyboard], [store_message]) are written in a state-and-exception
    monad over a [World] that holds everything the Python process can
    observe or change:

    - the module global [TAG_KEYS];
    - [context.user_data], one dictionary per Telegram user id;
    - the [set] objects alive in the interpreter, by address, because
      [button_handler] mutates the set it finds in [user_data] in place and
      hands the same object to [build_keyboard];
    - the rows of the table [diary_messages];
    - the Bot API calls issued so far, and what [error_handler] logged.

    What the outside world decides (the clock, the answer of the
    speech-to-text service, whether the insert goes through) is an argument
    of each handler.  Python [str] values are [string]s holding the UTF-8
    bytes of the text.

    The application is built without [concurrent_updates], so one update is
    handled to its end before the next: a run of the program is a fold of
    [process] over the updates.  The Bot API calls are taken to be
    delivered; the download of the voice file and the temporary file it
    goes through are left out, a failure there counting as a failure of the
    transcription. *)

From Stdlib Require Import ZArith NArith Ascii String.
From stdpp Require Import gmap strings list pretty.

(** ** Python string and list primitives used by the program *)

Module Py.

Definition chars : string → list ascii := String.list_ascii_of_string.
Definition str_of : list ascii → string := String.string_of_list_ascii.

(** UTF-8 bytes of one code point. *)
Definition utf8 (c : N) : string :=
  let b (n : N) := ascii_of_N n in
  (if c <? 128 then String (b c) ""
   else if c <? 2048 then
     String (b (192 + c / 64)) (String (b (128 + c mod 64)) "")
   else if c <? 65536 then
     String (b (224 + c / 4096))
       (String (b (128 + (c / 64) mod 64)) (String (b (128 + c mod 64)) ""))
   else
     String (b (240 + c / 262144))
       (String (b (128 + (c / 4096) mod 64))
          (String (b (128 + (c / 64) mod 64))
             (String (b (128 + c mod 64)) ""))))%N.

(** The code points for which [str.isspace] holds: the Unicode White_Space
    characters and the four separators U+001C..U+001F. *)
Definition whitespace_codepoints : list N :=
  [9; 10; 11; 12; 13; 28; 29; 30; 31; 32; 133; 160; 5760;
   8192; 8193; 8194; 8195; 8196; 8197; 8198; 8199; 8200; 8201; 8202;
   8232; 8233; 8239; 8287; 12288]%N.

Definition whitespace : list (list ascii) :=
  (λ c, chars (utf8 c)) <$> whitespace_codepoints.

(** One step of the scan in [str.strip]: if [l] starts with one of the
    characters [pats], the rest of [l] after that character. *)
Definition drop_one (pats : list (list ascii)) (l : list ascii)
  : option (list ascii) :=
  head (omap (λ p, if bool_decide (p `prefix_of` l)
                   then Some (drop (length p) l) else None) pats).

Fixpoint lstrip_go (pats : list (list ascii)) (fuel : nat) (l : list ascii)
  : list ascii :=
  match fuel with
  | O => l
  | S n => match drop_one pats l with
           | Some r => lstrip_go pats n r
           | None => l
           end
  end.

Definition lstrip_chars (pats : list (list ascii)) (l : list ascii) :=
  lstrip_go pats (length l) l.

(** [s.strip()]: scan from the left, then from the right. *)
Definition strip (s : string) : string :=
  let l := lstrip_chars whitespace (chars s) in
  str_of (reverse (lstrip_chars (reverse <$> whitespace) (reverse l))).

(** [s.replace(old, new)] for one-character [old] and [new]. *)
Fixpoint replace (old new : ascii) (s : string) : string :=
  match s with
  | EmptyString => EmptyString
  | String c r =>
      String (if bool_decide (c = old) then new else c) (replace old new r)
  end.

(** [s.startswith(p)] *)
Definition startswith (p s : string) : bool := String.prefix p s.

Fixpoint split_once (sep : ascii) (s : string) : option (string * string) :=
  match s with
  | EmptyString => None
  | String c r =>
      if bool_decide (c = sep) then Some (EmptyString, r)
      else match split_once sep r with
           | Some (a, b) => Some (String c a, b)
           | None => None
           end
  end.

(** [s.split(sep, 1)] for a one-character separator. *)
Definition split1 (sep : ascii) (s : string) : list string :=
  match split_once sep s with
  | Some (a, b) => [a; b]
  | None => [s]
  end.

Fixpoint range_go (fuel i stop step : nat) : list nat :=
  match fuel with
  | O => []
  | S n => if bool_decide (i < stop)%nat
           then i :: range_go n (i + step) stop step else []
  end.

(** [range(start, stop, step)] for a positive [step]. *)
Definition range (start stop step : nat) : list nat :=
  range_go stop start stop step.

(** [l[i:j]] for non-negative [i] and [j]. *)
Definition slice {A} (l : list A) (i j : nat) : list A :=
  take (j - i) (drop i l).

(** [a or b] where [a] is an optional string and [b] an integer, as it is
    formatted inside an f-string. *)
Definition or_str (a : option string) (b : Z) : string :=
  match a with
  | Some s => if bool_decide (s = EmptyString) then pretty b else s
  | None => pretty b
  end.

End Py.

Arguments Py.startswith : simpl never.
Arguments Py.split1 : simpl never.

(** ** The Telegram objects the program builds and the calls it makes *)

Module Telegram.

Record User := { id : Z; username : option string }.

Record InlineKeyboardButton := { text : string; callback_data : string }.

(** The rows of an inline keyboard. *)
Abbreviation InlineKeyboardMarkup := (list (list InlineKeyboardButton)).

(** The Bot API calls of the program.  The library delivers them; here a
    call is recorded in the order it is made. *)
Inductive Call :=
| answer
| reply_text (body : string) (reply_markup : InlineKeyboardMarkup)
             (parse_mode : string)
| edit_message_text (body : string)
| edit_message_reply_markup (reply_markup : option InlineKeyboardMarkup).

(** What a handler reads from its [update]: the user, the text of the
    message (text messages) and the data of the pressed button (callback
    queries). *)
Record Update := {
  effective_user : User;
  message_text : string;
  query_data : string
}.

End Telegram.

Export Telegram.

(** ** State of the process *)

(** Address of a [set] object. *)
Definition loc := nat.

(** [{"text": text, "ts": ts}], the fields named [p_text] and [p_ts]. *)
Record Pending := { p_text : string; p_ts : Z }.

(** One user's [context.user_data]: a dictionary with the two keys
    ["pending_message"] and ["selected_tags"], each present or not.  The
    second holds a reference to a [set] object. *)
Record UserData := {
  pending_message : option Pending;
  selected_tags : option loc
}.

Definition empty_dict : UserData :=
  {| pending_message := None; selected_tags := None |}.

(** A row of [diary_messages], in the column order of the insert; the
    column [text] is the field [row_text]. *)
Record DiaryRecord := {
  telegram_id : Z;
  ts : Z;
  row_text : string;
  tags : list string
}.

Inductive Exn :=
| TranscriptionError            (* the speech-to-text call raised *)
| PersistenceError              (* the insert raised *)
| KeyError (key : string)
| IndexError
| NoSuchObject (l : loc).       (* an address that [new_set] never returned *)

Record World := {
  TAG_KEYS : list string;
  user_data : gmap Z UserData;
  heap : gmap loc (gset string);
  diary_messages : list DiaryRecord;
  outbox : list (Z * Call);
  log : list Exn
}.

(** What the outside world decides while one update is handled:
    [datetime.now(timezone.utc)], the [text] of the transcription response
    ([None] when the call raises) and whether the database takes the
    insert. *)
Record Outside := {
  utcnow : Z;
  whisper : option string;
  insert_ok : bool
}.

(** ** The monad of the handlers: state and exceptions *)

Inductive Res (A : Type) :=
| Ok (a : A)
| Raise (e : Exn).
Arguments Ok {A} a.
Arguments Raise {A} e.

Definition M (A : Type) : Type := World → Res A * World.

#[global] Instance M_ret : MRet M := λ A a w, (Ok a, w).

#[global] Instance M_bind : MBind M := λ A B f m w,
  match m w with
  | (Ok a, w') => f a w'
  | (Raise e, w') => (Raise e, w')
  end.

Definition gets {A} (f : World → A) : M A := λ w, (Ok (f w), w).
Definition modify (f : World → World) : M unit := λ w, (Ok tt, f w).
Definition raise {A} (e : Exn) : M A := λ w, (Raise e, w).

(** [for x in l: acc = body(x, acc)] *)
Fixpoint for_ {A S} (l : list A) (acc : S) (body : A → S → M S) : M S :=
  match l with
  | [] => mret acc
  | x :: r => acc' ← body x acc; for_ r acc' body
  end.

(** *** Field updates *)

Definition with_user_data (f : gmap Z UserData → gmap Z UserData) (w : World) :=
  {| TAG_KEYS := TAG_KEYS w; user_data := f (user_data w); heap := heap w;
     diary_messages := diary_messages w; outbox := outbox w; log := log w |}.

Definition with_heap (f : gmap loc (gset string) → gmap loc (gset string))
    (w : World) :=
  {| TAG_KEYS := TAG_KEYS w; user_data := user_data w; heap := f (heap w);
     diary_messages := diary_messages w; outbox := outbox w; log := log w |}.

Definition with_diary_messages (f : list DiaryRecord → list DiaryRecord)
    (w : World) :=
  {| TAG_KEYS := TAG_KEYS w; user_data := user_data w; heap := heap w;
     diary_messages := f (diary_messages w); outbox := outbox w;
     log := log w |}.

Definition with_outbox (f : list (Z * Call) → list (Z * Call)) (w : World) :=
  {| TAG_KEYS := TAG_KEYS w; user_data := user_data w; heap := heap w;
     diary_messages := diary_messages w; outbox := f (outbox w);
     log := log w |}.

Definition with_log (f : list Exn → list Exn) (w : World) :=
  {| TAG_KEYS := TAG_KEYS w; user_data := user_data w; heap := heap w;
     diary_messages := diary_messages w; outbox := outbox w;
     log := f (log w) |}.

(** *** [set] objects *)

(** [set()] *)
Definition new_set : M loc := λ w,
  let l := fresh (dom (heap w)) in (Ok l, with_heap (insert l ∅) w).

Definition deref (l : loc) : M (gset string) := λ w,
  match heap w !! l with
  | Some s => (Ok s, w)
  | None => (Raise (NoSuchObject l), w)
  end.

(** [x in s] *)
Definition set_in (x : string) (s : loc) : M bool :=
  v ← deref s; mret (bool_decide (x ∈ v)).

(** [s.add(x)] *)
Definition set_add (s : loc) (x : string) : M unit :=
  v ← deref s; modify (with_heap (insert s (v ∪ {[x]}))).

(** [s.remove(x)] *)
Definition set_remove (s : loc) (x : string) : M unit :=
  v ← deref s;
  if bool_decide (x ∈ v) then modify (with_heap (insert s (v ∖ {[x]})))
  else raise (KeyError x).

(** [list(s)] *)
Definition list_of_set (s : loc) : M (list string) :=
  v ← deref s; mret (elements v).

(** *** [context.user_data] of the user [uid] *)

(** The dictionary the framework hands out for [uid]: empty for a user it
    has not seen. *)
Definition dict_of (uid : Z) (w : World) : UserData :=
  default empty_dict (user_data w !! uid).

Definition update_dict (uid : Z) (f : UserData → UserData) : M unit :=
  modify (λ w, with_user_data (insert uid (f (dict_of uid w))) w).

(** ["pending_message" in context.user_data] *)
Definition has_pending_message (uid : Z) : M bool :=
  gets (λ w, match pending_message (dict_of uid w) with
             | Some _ => true
             | None => false
             end).

(** [context.user_data["pending_message"] = p] *)
Definition set_pending_message (uid : Z) (p : Pending) : M unit :=
  update_dict uid (λ d, {| pending_message := Some p;
                           selected_tags := selected_tags d |}).

(** [context.user_data["selected_tags"] = s] *)
Definition set_selected_tags (uid : Z) (s : loc) : M unit :=
  update_dict uid (λ d, {| pending_message := pending_message d;
                           selected_tags := Some s |}).

(** [context.user_data["pending_message"]] *)
Definition get_pending_message (uid : Z) : M Pending :=
  d ← gets (dict_of uid);
  match pending_message d with
  | Some p => mret p
  | None => raise (KeyError "pending_message")
  end.

(** [context.user_data.get("selected_tags", dflt)] *)
Definition get_selected_tags (uid : Z) (dflt : loc) : M loc :=
  d ← gets (dict_of uid); mret (default dflt (selected_tags d)).

(** [context.user_data.clear()] *)
Definition clear (uid : Z) : M unit := update_dict uid (λ _, empty_dict).

(** *** Bot API *)

Definition call (uid : Z) (c : Call) : M unit :=
  modify (with_outbox (λ o, o ++ [(uid, c)])).

(** ** The program *)

(** [store_message]: one insert into [diary_messages]; the connection
    commits on its own. *)
Definition store_message (env : Outside) (telegram_id : Z) (text : string)
    (ts : Z) (tags : list string) : M unit :=
  if insert_ok env then
    modify (with_diary_messages (λ t, t ++
      [{| telegram_id := telegram_id; ts := ts; row_text := text;
          tags := tags |}]))
  else raise PersistenceError.

(** [TAGS], in the order of the dictionary literal. *)
Definition TAGS : list (string * string) :=
  [("Tag1", "Desc 1"); ("Tag2", "Desc 2"); ("Tag3", "Desc 3");
   ("Tag4", "Desc 4")].

Definition tag_button (prefix key : string) : InlineKeyboardButton :=
  {| text := prefix +:+ Py.replace "_" " " key;
     callback_data := "tag:" +:+ key |}.

Definition done_button : InlineKeyboardButton :=
  {| text := "💾 Done"; callback_data := "done" |}.

Definition build_keyboard (selected : loc) : M InlineKeyboardMarkup :=
  n ← gets (λ w, length (TAG_KEYS w));
  buttons ← for_ (Py.range 0 n 2) [] (λ i (buttons : InlineKeyboardMarkup),
    keys ← gets (λ w, Py.slice (TAG_KEYS w) i (i + 2));
    row ← for_ keys [] (λ key (row : list InlineKeyboardButton),
      b ← set_in key selected;
      let prefix := if (b : bool) then "✅ " else "" in
      mret (row ++ [tag_button prefix key]));
    mret (buttons ++ [row]));
  mret (buttons ++ [[done_button]]).

Definition nl : string := String (ascii_of_nat 10) "".

Definition handle_text (update : Update) (env : Outside) : M unit :=
  let user := effective_user update in
  let text := message_text update in
  let ts := utcnow env in
  set_pending_message (id user) {| p_text := text; p_ts := ts |};;
  s ← new_set;
  set_selected_tags (id user) s;;
  let reply :=
    "This is the text that " +:+ Py.or_str (username user) (id user) +:+
    " sent:" +:+ nl +:+ nl +:+ text +:+ nl +:+ nl +:+
    "Select the tags that apply and press *Done*." in
  s0 ← new_set;
  kb ← build_keyboard s0;
  call (id user) (reply_text reply kb "Markdown").

(** The function [transcribe] inside [handle_audio]. *)
Definition transcribe (env : Outside) : M string :=
  resp_text ← match whisper env with
              | Some t => mret t
              | None => raise TranscriptionError
              end;
  mret (Py.strip resp_text).

Definition handle_audio (update : Update) (env : Outside) : M unit :=
  let user := effective_user update in
  transcript ← transcribe env;
  let ts := utcnow env in
  set_pending_message (id user) {| p_text := transcript; p_ts := ts |};;
  s ← new_set;
  set_selected_tags (id user) s;;
  let reply :=
    "This is the transcription that " +:+
    Py.or_str (username user) (id user) +:+
    " sent:" +:+ nl +:+ nl +:+ transcript +:+ nl +:+ nl +:+
    "Select the tags that apply and press *Done*." in
  s0 ← new_set;
  kb ← build_keyboard s0;
  call (id user) (reply_text reply kb "Markdown").

Definition button_handler (update : Update) (env : Outside) : M unit :=
  let user := effective_user update in
  call (id user) answer;;
  pending_present ← has_pending_message (id user);
  if negb pending_present then
    call (id user)
      (edit_message_text "Nothing to store – please send a new message first.")
  else
    dflt ← new_set;
    selected ← get_selected_tags (id user) dflt;
    let data := query_data update in
    if Py.startswith "tag:" data then
      tag ← match Py.split1 ":" data !! 1%nat with
            | Some t => mret t
            | None => raise IndexError
            end;
      present ← set_in tag selected;
      (if (present : bool) then set_remove selected tag else set_add selected tag);;
      set_selected_tags (id user) selected;;
      kb ← build_keyboard selected;
      call (id user) (edit_message_reply_markup (Some kb))
    else if bool_decide (data = "done") then
      pending ← get_pending_message (id user);
      let text := p_text pending in
      let ts := p_ts pending in
      tags ← list_of_set selected;
      store_message env (id user) text ts tags;;
      call (id user) (edit_message_reply_markup None);;
      call (id user) (edit_message_text "Saved! ✅");;
      clear (id user)
    else mret tt.

(** [error_handler]: the exception is logged. *)
Definition error_handler (e : Exn) : M unit :=
  modify (with_log (λ l, l ++ [e])).

(** The handlers registered in [main], by kind of update.  A text message
    that is a command matches no handler. *)
Inductive Kind := text_message | command_message | audio_message | callback_query.

Definition dispatch (k : Kind) (update : Update) (env : Outside) : M unit :=
  match k with
  | text_message => handle_text update env
  | command_message => mret tt
  | audio_message => handle_audio update env
  | callback_query => button_handler update env
  end.

Record Event := { kind : Kind; upd : Update; outside : Outside }.

(** One update handled by the application: the handler runs, and an
    exception that leaves it goes to [error_handler]. *)
Definition process (w : World) (e : Event) : World :=
  match dispatch (kind e) (upd e) (outside e) w with
  | (Ok _, w') => w'
  | (Raise exn, w') => snd (error_handler exn w')
  end.

Definition run (w : World) (events : list Event) : World :=
  foldl process w events.

(** The process after start-up: [TAG_KEYS = list(TAGS.keys())]. *)
Definition initial_world : World :=
  {| TAG_KEYS := TAGS.*1; user_data := ∅; heap := ∅; diary_messages := [];
     outbox := []; log := [] |}.

(** ** Views of the state used in the statements *)

(** The set object behind [context.user_data.get("selected_tags", set())]. *)
Definition selected_set (uid : Z) (w : World) : option (gset string) :=
  match selected_tags (dict_of uid w) with
  | Some l => heap w !! l
  | None => Some ∅
  end.

(** The active session of [uid]: the pending entry and the selected tags.
    There is none when ["pending_message"] is not in the dictionary. *)
Definition session (uid : Z) (w : World) : option (Pending * gset string) :=
  p ← pending_message (dict_of uid w);
  sel ← selected_set uid w;
  Some (p, sel).

(** Flipping the membership of one identifier. *)
Definition toggle (x : string) (s : gset string) : gset string :=
  if bool_decide (x ∈ s) then s ∖ {[x]} else s ∪ {[x]}.

(** How often [x] occurs in [l]. *)
Definition count (x : string) (l : list string) : nat :=
  length (filter (λ y, y = x) l).

(** The catalogue cut into rows of two. *)
Fixpoint rows_of_two {A} (l : list A) : list (list A) :=
  match l with
  | a :: b :: r => [a; b] :: rows_of_two r
  | [a] => [[a]]
  | [] => []
  end.

(** The button of [key] when [sel] is selected. *)
Definition button_of (sel : gset string) (key : string) : InlineKeyboardButton :=
  {| text := (if bool_decide (key ∈ sel) then "✅ " else "") +:+
             Py.replace "_" " " key;
     callback_data := "tag:" +:+ key |}.

Definition keyboard_of (keys : list string) (sel : gset string)
  : InlineKeyboardMarkup :=
  ((λ row : list string, button_of sel <$> row) <$> rows_of_two keys) ++ [[done_button]].

(** The layout as the specification words it: each button carries the
    description of its tag. *)
Definition spec_button_of (sel : gset string) (tag : string * string)
  : InlineKeyboardButton :=
  {| text := (if bool_decide (tag.1 ∈ sel) then "✅ " else "") +:+
             Py.replace "_" " " tag.2;
     callback_data := "tag:" +:+ tag.1 |}.

Definition spec_keyboard_of (catalog : list (string * string))
    (sel : gset string) : InlineKeyboardMarkup :=
  ((λ row : list (string * string), spec_button_of sel <$> row) <$>
     rows_of_two catalog) ++ [[done_button]].

(** *** The updates of one user *)

Definition text_event (user : User) (text : string) (env : Outside) : Event :=
  {| kind := text_message;
     upd := {| effective_user := user; message_text := text;
               query_data := "" |};
     outside := env |}.

Definition audio_event (user : User) (env : Outside) : Event :=
  {| kind := audio_message;
     upd := {| effective_user := user; message_text := "";
               query_data := "" |};
     outside := env |}.

Definition button_event (user : User) (data : string) (env : Outside) : Event :=
  {| kind := callback_query;
     upd := {| effective_user := user; message_text := "";
               query_data := data |};
     outside := env |}.

(** Pressing the button of [tag]: the data is what [build_keyboard] put on
    that button. *)
Definition toggle_event (user : User) (tag : string) (env : Outside) : Event :=
  button_event user ("tag:" +:+ tag) env.

Definition done_event (user : User) (env : Outside) : Event :=
  button_event user "done" env.

(** The updates of [user] pressing, one after the other, the buttons of
    the tags in [presses]. *)
Definition toggle_events (user : User) (presses : list (string * Outside))
  : list Event :=
  (λ '(tag, env), toggle_event user tag env) <$> presses.

(** The text an update opens a session with, if it opens one: the text of
    a text message, the transcription of a voice message. *)
Definition begin_text (e : Event) : option string :=
  match kind e with
  | text_message => Some (message_text (upd e))
  | audio_message => Py.strip <$> whisper (outside e)
  | _ => None
  end.

(** An update that opens a session of [uid]. *)
Definition begins (uid : Z) (e : Event) : Prop :=
  id (effective_user (upd e)) = uid ∧ is_Some (begin_text e).

(** The state after a message of [user] with text [text] arrived at time
    [now]; [intro] is how the reply starts. *)
Definition opened (user : User) (text : string) (now : Z) (intro : string)
    (w : World) : World :=
  let l := fresh (dom (heap w)) in
  let l0 := fresh (dom (<[l:=∅]> (heap w))) in
  {| TAG_KEYS := TAG_KEYS w;
     user_data :=
       <[id user := {| pending_message := Some {| p_text := text; p_ts := now |};
                       selected_tags := Some l |}]> (user_data w);
     heap := <[l0:=∅]> (<[l:=∅]> (heap w));
     diary_messages := diary_messages w;
     outbox := outbox w ++
       [(id user,
         reply_text
           (intro +:+ Py.or_str (username user) (id user) +:+ " sent:" +:+
            nl +:+ nl +:+ text +:+ nl +:+ nl +:+
            "Select the tags that apply and press *Done*.")
           (keyboard_of (TAG_KEYS w) ∅) "Markdown")];
     log := log w |}.

(** The state after [user], whose selected tags were [sel], pressed the
    button of [tag]. *)
Definition toggled (user : User) (tag : string) (sel : gset string)
    (w : World) : World :=
  let dflt := fresh (dom (heap w)) in
  let s := default dflt (selected_tags (dict_of (id user) w)) in
  {| TAG_KEYS := TAG_KEYS w;
     user_data :=
       <[id user := {| pending_message := pending_message (dict_of (id user) w);
                       selected_tags := Some s |}]> (user_data w);
     heap := <[s:=toggle tag sel]> (<[dflt:=∅]> (heap w));
     diary_messages := diary_messages w;
     outbox := outbox w ++
       [(id user, answer);
        (id user, edit_message_reply_markup
                    (Some (keyboard_of (TAG_KEYS w) (toggle tag sel))))];
     log := log w |}.

(** The state after [user], whose session was [(p, sel)], pressed "Done"
    and the insert went through. *)
Definition saved (user : User) (p : Pending) (sel : gset string)
    (w : World) : World :=
  {| TAG_KEYS := TAG_KEYS w;
     user_data := <[id user := empty_dict]> (user_data w);
     heap := <[fresh (dom (heap w)):=∅]> (heap w);
     diary_messages := diary_messages w ++
       [{| telegram_id := id user; ts := p_ts p; row_text := p_text p;
           tags := elements sel |}];
     outbox := outbox w ++
       [(id user, answer);
        (id user, edit_message_reply_markup None);
        (id user, edit_message_text "Saved! ✅")];
     log := log w |}.

(** The state in which a pressed button left the handler after the
    ["pending_message"] test without doing more: a temporary set was
    built and the query answered. *)
Definition answered (user : User) (w : World) : World :=
  {| TAG_KEYS := TAG_KEYS w;
     user_data := user_data w;
     heap := <[fresh (dom (heap w)):=∅]> (heap w);
     diary_messages := diary_messages w;
     outbox := outbox w ++ [(id user, answer)];
     log := log w |}.

(** The state after a button was pressed without a session. *)
Definition nothing_to_store (user : User) (w : World) : World :=
  with_outbox (λ o, o ++
    [(id user, answer);
     (id user, edit_message_text
                 "Nothing to store – please send a new message first.")]) w.

(** *** What a computation leaves alone *)

(** Whatever [m] returns or raises, the state it leaves is related by [R]
    to the state it started from. *)
Definition preserves {A} (R : relation World) (m : M A) : Prop :=
  ∀ w, R w (m w).2.

(** The catalogue and the dictionaries of the users other than [uid] are
    as before. *)
Definition only_dict_of (uid : Z) (w w' : World) : Prop :=
  TAG_KEYS w' = TAG_KEYS w ∧
  ∀ u, u ≠ uid → user_data w' !! u = user_data w !! u.

(** A string made of whitespace characters only. *)
Definition all_space (l : list ascii) : Prop :=
  ∃ ps, Forall (λ p, p ∈ Py.whitespace) ps ∧ l = concat ps.

(** *** Reachable states *)

(** Every set a dictionary refers to is alive. *)
Definition well_formed (w : World) : Prop :=
  ∀ uid d l, user_data w !! uid = Some d → selected_tags d = Some l →
             is_Some (heap w !! l).

Definition reachable (w : World) : Prop := ∃ evs, w = run initial_world evs.

(** No set is shared by the dictionaries of two users. *)
Definition separated (w : World) : Prop :=
  ∀ u1 u2 d1 d2 l,
    user_data w !! u1 = Some d1 → user_data w !! u2 = Some d2 →
    selected_tags d1 = Some l → selected_tags d2 = Some l → u1 = u2.

(** The program as a transition system: what the update [e] makes of the
    state [w]. *)
Inductive step (w : World) (e : Event) : World → Prop :=
| step_text :
    kind e = text_message →
    step w e (opened (effective_user (upd e)) (message_text (upd e))
                (utcnow (outside e)) "This is the text that " w)
| step_command :
    kind e = command_message →
    step w e w
| step_audio t :
    kind e = audio_message →
    whisper (outside e) = Some t →
    step w e (opened (effective_user (upd e)) (Py.strip t)
                (utcnow (outside e)) "This is the transcription that " w)
| step_audio_fails :
    kind e = audio_message →
    whisper (outside e) = None →
    step w e (with_log (λ l, l ++ [TranscriptionError]) w)
| step_no_session :
    kind e = callback_query →
    pending_message (dict_of (id (effective_user (upd e))) w) = None →
    step w e (nothing_to_store (effective_user (upd e)) w)
| step_toggle tag p sel :
    kind e = callback_query →
    session (id (effective_user (upd e))) w = Some (p, sel) →
    query_data (upd e) = "tag:" +:+ tag →
    step w e (toggled (effective_user (upd e)) tag sel w)
| step_done p sel :
    kind e = callback_query →
    session (id (effective_user (upd e))) w = Some (p, sel) →
    query_data (upd e) = "done" →
    insert_ok (outside e) = true →
    step w e (saved (effective_user (upd e)) p sel w)
| step_done_fails p sel :
    kind e = callback_query →
    session (id (effective_user (upd e))) w = Some (p, sel) →
    query_data (upd e) = "done" →
    insert_ok (outside e) = false →
    step w e (with_log (λ l, l ++ [PersistenceError])
                (answered (effective_user (upd e)) w))
| step_other p sel :
    kind e = callback_query →
    session (id (effective_user (upd e))) w = Some (p, sel) →
    Py.startswith "tag:" (query_data (upd e)) = false →
    query_data (upd e) ≠ "done" →
    step w e (answered (effective_user (upd e)) w).

(** The tag whose button the update [e] presses for [uid], if [e] is such
    an update. *)
Definition press (uid : Z) (e : Event) : option string :=
  match kind e with
  | callback_query =>
      if bool_decide (id (effective_user (upd e)) = uid)
         && Py.startswith "tag:" (query_data (upd e))
      then Py.split1 ":" (query_data (upd e)) !! 1%nat
      else None
  | _ => None
  end.

(** [uid] presses "Done" and the insert goes through. *)
Definition completes (uid : Z) (e : Event) : Prop :=
  kind e = callback_query ∧ id (effective_user (upd e)) = uid ∧
  query_data (upd e) = "done" ∧ insert_ok (outside e) = true.

(** *** A run of the program *)

Definition alice : User := {| id := 7; username := Some "alice" |}.
Definition bob : User := {| id := 8; username := None |}.

(** The database is up and the voice message is understood. *)
Definition fine : Outside :=
  {| utcnow := 1000; whisper := Some "  Hello world  "; insert_ok := true |}.

(** Neither the database nor the speech-to-text service answers. *)
Definition outage : Outside :=
  {| utcnow := 2000; whisper := None; insert_ok := false |}.

(** Alice sent "Hello world" and pressed Tag1, Tag1, Tag2. *)
Definition hello : World :=
  run initial_world
    (text_event alice "Hello world" fine ::
     toggle_events alice [("Tag1", fine); ("Tag1", fine); ("Tag2", fine)]).

(** Between the message and "Done": Alice presses Tag1, then Idea, which
    is no key of the catalogue; Bob sends a message and presses Idea; Alice
    presses Tag1 again. *)
Definition between : list Event :=
  [toggle_event alice "Tag1" fine; toggle_event alice "Idea" fine;
   text_event bob "hi" fine; toggle_event bob "Idea" fine;
   toggle_event alice "Tag1" fine].

(** After "Done": a tag button, a message of Bob, a voice message of Alice
    that is not understood. *)
Definition after_done : list Event :=
  [toggle_event alice "Tag1" fine; text_event bob "hi" fine;
   audio_event alice outage].

(** A state in which the set at address 0 holds Tag2. *)
Definition one_set : World := with_heap (insert 0%nat {["Tag2"]}) initial_world.

(** A voice message of Alice. *)
Definition voice : Update :=
  {| effective_user := alice; message_text := ""; query_data := "" |}.

(** *** Start-up *)

(** A value is true in a condition when it is a string that is not empty;
    [None] stands for Python's [None]. *)
Definition truthy (v : option string) : bool :=
  match v with
  | Some s => negb (bool_decide (s = EmptyString))
  | None => false
  end.

(** How the module ends its top-level code. *)
Inductive Boot :=
| Booted (w : World)
| RuntimeError (message : string)
| OperationalError.      (* [psycopg2.connect] raised *)

(** The top-level code of the module, up to [conn.autocommit = True]:
    [environ] is the environment after [load_dotenv()], [connects] tells
    whether the database behind a connection string accepts the
    connection. *)
Definition boot (environ : gmap string string) (connects : string → bool)
  : Boot :=
  let TOKEN := environ !! "BOT_TOKEN" in
  let OPEN_AI_TOKEN := environ !! "OPENAI_API_KEY" in
  let DB_URL := environ !! "SUPABASE_DB_URL" in
  if negb (forallb truthy [TOKEN; OPEN_AI_TOKEN; DB_URL]) then
    RuntimeError
      "Missing BOT_TOKEN, OPENAI_API_KEY or SUPABASE_DB_URL – check your .env file!"
  else if connects (default EmptyString DB_URL) then Booted initial_world
  else OperationalError.

(** *** More views of the state *)

(** The table, the calls made and the log only get longer. *)
Definition grows (w w' : World) : Prop :=
  diary_messages w `prefix_of` diary_messages w' ∧
  outbox w `prefix_of` outbox w' ∧
  log w `prefix_of` log w'.


(** The confirmation the user reads after "Done". *)
Definition saved_notice : Call := edit_message_text "Saved! ✅".

(** A call that tells the user the entry was saved. *)
Definition is_saved_notice (c : Z * Call) : bool :=
  match c.2 with
  | edit_message_text body => bool_decide (body = "Saved! ✅")
  | _ => false
  end.

(** *** More of the run *)

(** The service answers with a text that has no whitespace around it. *)
Definition clean : Outside :=
  {| utcnow := 4000; whisper := Some "Hello world"; insert_ok := true |}.


(** * Properties *)

(** ** Running the monad *)

Lemma bind_ok {A B} (m : M A) (f : A → M B) w a w' :
  m w = (Ok a, w') → (m ≫= f) w = f a w'.
Proof. intros H. unfold mbind, M_bind. by rewrite H. Qed.

Lemma bind_raise {A B} (m : M A) (f : A → M B) w e w' :
  m w = (Raise e, w') → (m ≫= f) w = (Raise e, w').
Proof. intros H. unfold mbind, M_bind. by rewrite H. Qed.

(** A loop whose body only reads the state. *)
Lemma for_reads {A S} (g : A → S → S) (body : A → S → M S) w l :
  (∀ x acc, x ∈ l → body x acc w = (Ok (g x acc), w)) →
  ∀ acc, for_ l acc body w = (Ok (foldl (λ acc x, g x acc) acc l), w).
Proof.
  induction l as [|x l IH]; intros Hbody acc; simpl; [done|].
  erewrite bind_ok; last by apply Hbody; left.
  apply IH. intros y acc' Hy. apply Hbody. by right.
Qed.

(** ** [range] and slices *)

Lemma range_go_slices {A} (keys : list A) fuel i :
  (length keys ≤ i + fuel)%nat →
  (λ j, Py.slice keys j (j + 2)) <$> Py.range_go fuel i (length keys) 2
  = rows_of_two (drop i keys).
Proof.
  revert i. induction fuel as [|fuel IH]; intros i Hfuel; simpl.
  - by rewrite drop_ge by lia.
  - case_bool_decide as Hi.
    + rewrite fmap_cons, IH by lia.
      unfold Py.slice. replace (i + 2 - i)%nat with 2%nat by lia.
      rewrite <-(drop_drop keys 2 i) .
      destruct (drop i keys) as [|a [|b r]] eqn:Hd.
      * apply (f_equal length) in Hd. rewrite length_drop in Hd. simpl in Hd. lia.
      * done.
      * done.
    + by rewrite drop_ge by lia.
Qed.

Lemma range_slices {A} (keys : list A) :
  (λ j, Py.slice keys j (j + 2)) <$> Py.range 0 (length keys) 2
  = rows_of_two keys.
Proof. unfold Py.range. by rewrite range_go_slices by lia. Qed.

Example range_by_two :
  Py.range 0 4 2 = [0; 2]%nat ∧ Py.range 0 5 2 = [0; 2; 4]%nat.
Proof. done. Qed.

Example slice_past_the_end :
  Py.slice ["a"; "b"; "c"] 2 4 = ["c"] ∧ Py.slice ["a"; "b"; "c"] 0 2 = ["a"; "b"].
Proof. done. Qed.

Lemma foldl_snoc {A B} (f : A → B) (l : list A) (acc : list B) :
  foldl (λ acc x, acc ++ [f x]) acc l = acc ++ (f <$> l).
Proof.
  revert acc. induction l as [|x l IH]; intros acc; simpl.
  - by rewrite app_nil_r.
  - by rewrite IH, <-app_assoc.
Qed.

(** ** [build_keyboard] *)

Lemma set_in_run l w sel x :
  heap w !! l = Some sel → set_in x l w = (Ok (bool_decide (x ∈ sel)), w).
Proof.
  intros Hl. unfold set_in. erewrite bind_ok; [done|].
  unfold deref. by rewrite Hl.
Qed.

(** The keyboard is [keyboard_of] of the catalogue and the set, and the
    call leaves the whole state as it found it. *)
Lemma build_keyboard_run l w sel :
  heap w !! l = Some sel →
  build_keyboard l w = (Ok (keyboard_of (TAG_KEYS w) sel), w).
Proof.
  intros Hl. unfold build_keyboard.
  erewrite bind_ok; last done.
  erewrite bind_ok; last first.
  { apply (for_reads (λ i (buttons : InlineKeyboardMarkup),
             buttons ++ [button_of sel <$> Py.slice (TAG_KEYS w) i (i + 2)])).
    intros i buttons _.
    erewrite bind_ok; last done.
    erewrite bind_ok; last first.
    { apply (for_reads (λ key (row : list InlineKeyboardButton),
               row ++ [button_of sel key])).
      intros key row _. erewrite bind_ok; last by apply set_in_run.
      unfold button_of, tag_button. by case_bool_decide. }
    by rewrite foldl_snoc. }
  rewrite (foldl_snoc (λ i, button_of sel <$> Py.slice (TAG_KEYS w) i (i + 2))).
  unfold keyboard_of. simpl.
  rewrite <-range_slices, <-list_fmap_compose. done.
Qed.

(** ** Strings of the callback data *)

Lemma startswith_tag tag : Py.startswith "tag:" ("tag:" +:+ tag) = true.
Proof. unfold Py.startswith. simpl. by destruct tag. Qed.

Lemma split1_tag tag : Py.split1 ":" ("tag:" +:+ tag) !! 1%nat = Some tag.
Proof. reflexivity. Qed.

Lemma startswith_inv p s : Py.startswith p s = true → ∃ r, s = p +:+ r.
Proof.
  unfold Py.startswith. revert s. induction p as [|c p IH]; intros s H.
  - by exists s.
  - destruct s as [|c' s]; simpl in H; [done|].
    destruct (ascii_dec c c') as [->|]; [|done].
    destruct (IH s H) as [r ->]. by exists r.
Qed.

Example split1_keeps_later_colons :
  Py.split1 ":" "tag:a:b" = ["tag"; "a:b"] ∧ Py.split1 ":" "done" = ["done"].
Proof. done. Qed.

Example replace_underscores :
  Py.replace "_" " " "Deep_Work_Log" = "Deep Work Log".
Proof. done. Qed.

Example or_str_cases :
  Py.or_str (Some "alice") 7 = "alice" ∧ Py.or_str (Some "") 7 = "7" ∧
  Py.or_str None 7 = "7".
Proof. done. Qed.

(** ** The message handlers *)

Ltac run_step := erewrite bind_ok; [|reflexivity].

Ltac unfold_world :=
  unfold call, update_dict, modify, with_outbox, with_heap, with_user_data,
    with_diary_messages, with_log; simpl.

Lemma opened_session user text now intro w :
  session (id user) (opened user text now intro w)
  = Some ({| p_text := text; p_ts := now |}, ∅).
Proof.
  unfold session, selected_set, dict_of, opened. simpl.
  rewrite lookup_insert_eq. simpl.
  rewrite lookup_insert_ne, lookup_insert_eq; [done|].
  intros Heq. apply (is_fresh (dom (<[fresh (dom (heap w)):=∅]> (heap w)))).
  rewrite Heq at 1. set_solver.
Qed.

Lemma handle_text_run update env w :
  handle_text update env w
  = (Ok tt, opened (effective_user update) (message_text update) (utcnow env)
              "This is the text that " w).
Proof.
  unfold handle_text. do 4 run_step.
  erewrite bind_ok; last first.
  { apply build_keyboard_run. simpl. apply lookup_insert_eq. }
  unfold opened, dict_of. unfold_world.
  by rewrite lookup_insert_eq, insert_insert_eq.
Qed.

Lemma handle_audio_run update env w t :
  whisper env = Some t →
  handle_audio update env w
  = (Ok tt, opened (effective_user update) (Py.strip t) (utcnow env)
              "This is the transcription that " w).
Proof.
  intros Ht. unfold handle_audio.
  erewrite bind_ok; last by (unfold transcribe; rewrite Ht).
  do 4 run_step.
  erewrite bind_ok; last first.
  { apply build_keyboard_run. simpl. apply lookup_insert_eq. }
  unfold opened, dict_of. unfold_world.
  by rewrite lookup_insert_eq, insert_insert_eq.
Qed.

Lemma handle_audio_fails update env w :
  whisper env = None →
  handle_audio update env w = (Raise TranscriptionError, w).
Proof.
  intros Ht. unfold handle_audio.
  erewrite bind_raise; [done|]. unfold transcribe. by rewrite Ht.
Qed.

(** ** The button handler *)

Lemma button_no_session update env w :
  pending_message (dict_of (id (effective_user update)) w) = None →
  button_handler update env w
  = (Ok tt, nothing_to_store (effective_user update) w).
Proof.
  intros Hp. unfold button_handler. run_step.
  erewrite bind_ok; last first.
  { unfold has_pending_message, gets, dict_of in *. unfold_world. by rewrite Hp. }
  unfold nothing_to_store. unfold_world. by rewrite <-app_assoc.
Qed.

Lemma selected_after_default uid w sel :
  selected_set uid w = Some sel →
  <[fresh (dom (heap w)):=∅]> (heap w)
    !! default (fresh (dom (heap w))) (selected_tags (dict_of uid w))
  = Some sel.
Proof.
  unfold selected_set. destruct (selected_tags (dict_of uid w)) as [l|]; simpl.
  - intros Hl. rewrite lookup_insert_ne; [done|].
    intros <-. apply (is_fresh (dom (heap w))). by apply elem_of_dom.
  - intros [= <-]. apply lookup_insert_eq.
Qed.

Lemma has_pending_message_run uid w :
  has_pending_message uid w
  = (Ok (bool_decide (is_Some (pending_message (dict_of uid w)))), w).
Proof.
  unfold has_pending_message, gets.
  destruct (pending_message (dict_of uid w)); [|done].
  by rewrite bool_decide_true.
Qed.

Lemma flip_run l x w sel :
  heap w !! l = Some sel →
  (if bool_decide (x ∈ sel) then set_remove l x else set_add l x) w
  = (Ok tt, with_heap (insert l (toggle x sel)) w).
Proof.
  intros Hl. unfold toggle, set_remove, set_add. case_bool_decide.
  - erewrite bind_ok; last by (unfold deref; rewrite Hl).
    by rewrite bool_decide_true.
  - erewrite bind_ok; last by (unfold deref; rewrite Hl). done.
Qed.

Lemma list_of_set_run l w sel :
  heap w !! l = Some sel → list_of_set l w = (Ok (elements sel), w).
Proof.
  intros Hl. unfold list_of_set.
  erewrite bind_ok; last by (unfold deref; rewrite Hl). done.
Qed.

Ltac wsimpl :=
  cbn [user_data heap TAG_KEYS diary_messages outbox log with_outbox with_heap
       with_user_data with_diary_messages with_log negb].

Lemma button_toggle_run update env w tag p sel :
  query_data update = "tag:" +:+ tag →
  session (id (effective_user update)) w = Some (p, sel) →
  button_handler update env w
  = (Ok tt, toggled (effective_user update) tag sel w).
Proof.
  unfold session. intros Hdata Hs.
  destruct (pending_message (dict_of _ w)) as [p'|] eqn:Hp; [|done].
  destruct (selected_set _ w) as [sel'|] eqn:Hsel; [|done].
  simpl in Hs. injection Hs as -> ->.
  apply selected_after_default in Hsel.
  unfold button_handler. rewrite Hdata, startswith_tag, split1_tag.
  run_step.
  erewrite bind_ok; last apply has_pending_message_run.
  unfold toggled, dict_of in *. wsimpl. rewrite Hp.
  rewrite bool_decide_true by done. wsimpl.
  do 3 run_step.
  erewrite bind_ok; last by (apply set_in_run; wsimpl).
  erewrite bind_ok; last by (apply flip_run; wsimpl).
  run_step.
  erewrite bind_ok;
    last by (apply build_keyboard_run; wsimpl; apply lookup_insert_eq).
  unfold_world. unfold dict_of. simpl. rewrite Hp, <-app_assoc. done.
Qed.

Lemma button_done_run update env w p sel :
  query_data update = "done" →
  session (id (effective_user update)) w = Some (p, sel) →
  insert_ok env = true →
  button_handler update env w = (Ok tt, saved (effective_user update) p sel w).
Proof.
  unfold session. intros Hdata Hs Hok.
  destruct (pending_message (dict_of _ w)) as [p'|] eqn:Hp; [|done].
  destruct (selected_set _ w) as [sel'|] eqn:Hsel; [|done].
  simpl in Hs. injection Hs as -> ->.
  apply selected_after_default in Hsel.
  unfold button_handler. rewrite Hdata.
  change (Py.startswith "tag:" "done") with false.
  rewrite bool_decide_true by done.
  run_step.
  erewrite bind_ok; last apply has_pending_message_run.
  unfold saved, dict_of in *. wsimpl. rewrite Hp.
  rewrite bool_decide_true by done. wsimpl.
  do 2 run_step.
  erewrite bind_ok; last first.
  { unfold get_pending_message. run_step. unfold dict_of. wsimpl.
    by rewrite Hp. }
  erewrite bind_ok; last by (apply list_of_set_run; wsimpl).
  unfold store_message. rewrite Hok.
  do 3 run_step.
  unfold clear. unfold_world. by rewrite <-!app_assoc.
Qed.

Lemma button_done_fails update env w p sel :
  query_data update = "done" →
  session (id (effective_user update)) w = Some (p, sel) →
  insert_ok env = false →
  button_handler update env w
  = (Raise PersistenceError, answered (effective_user update) w).
Proof.
  unfold session. intros Hdata Hs Hok.
  destruct (pending_message (dict_of _ w)) as [p'|] eqn:Hp; [|done].
  destruct (selected_set _ w) as [sel'|] eqn:Hsel; [|done].
  simpl in Hs. injection Hs as -> ->.
  apply selected_after_default in Hsel.
  unfold button_handler. rewrite Hdata.
  change (Py.startswith "tag:" "done") with false.
  rewrite bool_decide_true by done.
  run_step.
  erewrite bind_ok; last apply has_pending_message_run.
  unfold answered, dict_of in *. wsimpl. rewrite Hp.
  rewrite bool_decide_true by done. wsimpl.
  do 2 run_step.
  erewrite bind_ok; last first.
  { unfold get_pending_message. run_step. unfold dict_of. wsimpl.
    by rewrite Hp. }
  erewrite bind_ok; last by (apply list_of_set_run; wsimpl).
  unfold store_message. rewrite Hok.
  erewrite bind_raise; last reflexivity. done.
Qed.

(** Data that is neither a tag nor "done": nothing more happens. *)
Lemma button_other_run update env w p :
  pending_message (dict_of (id (effective_user update)) w) = Some p →
  Py.startswith "tag:" (query_data update) = false →
  query_data update ≠ "done" →
  button_handler update env w = (Ok tt, answered (effective_user update) w).
Proof.
  intros Hp Htag Hdone. unfold button_handler.
  rewrite Htag, bool_decide_false by done.
  run_step.
  erewrite bind_ok; last apply has_pending_message_run.
  unfold answered, dict_of in *. wsimpl. rewrite Hp.
  rewrite bool_decide_true by done. wsimpl.
  by do 2 run_step.
Qed.

(** ** What a handler leaves alone *)

Section frame.
Context (R : relation World) `{!PreOrder R}.

Lemma preserves_ret {A} (a : A) : preserves R (mret a).
Proof. intros w. simpl. reflexivity. Qed.

Lemma preserves_raise {A} e : preserves R (raise (A:=A) e).
Proof. intros w. simpl. reflexivity. Qed.

Lemma preserves_gets {A} (f : World → A) : preserves R (gets f).
Proof. intros w. simpl. reflexivity. Qed.

Lemma preserves_modify f : (∀ w, R w (f w)) → preserves R (modify f).
Proof. intros Hf w. apply Hf. Qed.

Lemma preserves_bind {A B} (m : M A) (f : A → M B) :
  preserves R m → (∀ a, preserves R (f a)) → preserves R (m ≫= f).
Proof.
  intros Hm Hf w. unfold mbind, M_bind.
  specialize (Hm w). destruct (m w) as [[a|e] w']; simpl in *; [|done].
  etrans; [exact Hm|apply Hf].
Qed.

Lemma preserves_for {A S} (l : list A) (acc : S) body :
  (∀ x acc, preserves R (body x acc)) → preserves R (for_ l acc body).
Proof.
  intros Hbody. revert acc. induction l as [|x l IH]; intros acc; simpl.
  - apply preserves_ret.
  - apply preserves_bind; [apply Hbody|apply IH].
Qed.
End frame.

Ltac frame :=
  repeat match goal with
    | |- PreOrder _ => apply _
    | |- ∀ _, _ => intro
    | |- preserves _ (mret _) => apply preserves_ret
    | |- preserves _ (raise _) => apply preserves_raise
    | |- preserves _ (gets _) => apply preserves_gets
    | |- preserves _ (_ ≫= _) => apply preserves_bind
    | |- preserves _ (for_ _ _ _) => apply preserves_for
    | |- preserves _ (modify _) => apply preserves_modify
    | |- preserves _ (if ?b then _ else _) => destruct b
    | |- preserves _ (match ?x with _ => _ end) => destruct x
    end.

#[global] Instance only_dict_of_preorder uid : PreOrder (only_dict_of uid).
Proof.
  split.
  - by intros w.
  - intros w1 w2 w3 [H1 H1'] [H2 H2']. split; [congruence|].
    intros u Hu. rewrite H2', H1'; done.
Qed.

Lemma new_set_only uid : preserves (only_dict_of uid) new_set.
Proof. by intros w. Qed.

Lemma deref_only uid l : preserves (only_dict_of uid) (deref l).
Proof. intros w. unfold deref. by destruct (heap w !! l). Qed.

Ltac frame_only :=
  unfold set_in, set_add, set_remove, list_of_set, has_pending_message,
    set_pending_message, set_selected_tags, get_pending_message,
    get_selected_tags, clear, update_dict, call, store_message, transcribe;
  frame;
  try first [ apply new_set_only | apply deref_only
            | by (split; [done|]; intros; simpl; rewrite ?lookup_insert_ne) ].

Lemma build_keyboard_only uid l : preserves (only_dict_of uid) (build_keyboard l).
Proof. unfold build_keyboard. frame_only. Qed.

Lemma handle_text_only update env :
  preserves (only_dict_of (id (effective_user update))) (handle_text update env).
Proof.
  unfold handle_text. frame_only. all: try apply build_keyboard_only. 
Qed.

Lemma handle_audio_only update env :
  preserves (only_dict_of (id (effective_user update))) (handle_audio update env).
Proof.
  unfold handle_audio. frame_only. all: try apply build_keyboard_only.
Qed.

Lemma button_handler_only update env :
  preserves (only_dict_of (id (effective_user update))) (button_handler update env).
Proof.
  unfold button_handler. frame_only. all: try apply build_keyboard_only. 
Qed.

Lemma process_only w e : only_dict_of (id (effective_user (upd e))) w (process w e).
Proof.
  unfold process.
  assert (preserves (only_dict_of (id (effective_user (upd e))))
            (dispatch (kind e) (upd e) (outside e))) as H.
  { unfold dispatch. destruct (kind e);
      auto using handle_text_only, handle_audio_only, button_handler_only.
    apply preserves_ret. apply _. }
  specialize (H w). destruct (dispatch _ _ _ w) as [[[]|exn] w']; [done|].
  simpl in *. destruct H. by split.
Qed.

(** ** [str.strip] *)

Lemma drop_one_Some pats l r :
  Py.drop_one pats l = Some r → ∃ p, p ∈ pats ∧ l = p ++ r.
Proof.
  unfold Py.drop_one. induction pats as [|p pats IH]; simpl; [done|].
  case_bool_decide as Hp; simpl.
  - intros [= <-]. exists p. split; [left|].
    destruct Hp as [k ->]. by rewrite drop_app_length.
  - intros (q & Hq & ->)%IH. exists q. split; [by right|done].
Qed.

Lemma drop_one_None pats l p :
  Py.drop_one pats l = None → p ∈ pats → ¬ p `prefix_of` l.
Proof.
  unfold Py.drop_one. induction pats as [|q pats IH]; simpl.
  - by intros _ ?%elem_of_nil.
  - case_bool_decide as Hq; simpl; [done|].
    intros Hn [->|Hp]%elem_of_cons; [done|by apply IH].
Qed.

Lemma drop_one_prefix pats l p :
  p ∈ pats → p `prefix_of` l → is_Some (Py.drop_one pats l).
Proof.
  intros Hp Hl. destruct (Py.drop_one pats l) eqn:H; [done|].
  by destruct (drop_one_None _ _ _ H Hp).
Qed.

Section lstrip.
Context (pats : list (list ascii)).
Hypothesis pats_nonempty : Forall (λ p, p ≠ []) pats.

Lemma lstrip_go_split fuel l :
  ∃ ps, Forall (λ p, p ∈ pats) ps ∧ l = concat ps ++ Py.lstrip_go pats fuel l.
Proof.
  revert l. induction fuel as [|fuel IH]; intros l; simpl.
  - by exists [].
  - destruct (Py.drop_one pats l) as [r|] eqn:Hr; [|by exists []].
    apply drop_one_Some in Hr as (p & Hp & ->).
    destruct (IH r) as (ps & Hps & Hr). exists (p :: ps). split.
    + by constructor.
    + simpl. by rewrite <-app_assoc, <-Hr.
Qed.

Lemma lstrip_go_done fuel l :
  (length l ≤ fuel)%nat → Py.drop_one pats (Py.lstrip_go pats fuel l) = None.
Proof.
  revert l. induction fuel as [|fuel IH]; intros l Hl; simpl.
  - destruct l; [|simpl in Hl; lia].
    destruct (Py.drop_one pats []) as [r|] eqn:Hr; [|done].
    apply drop_one_Some in Hr as (p & Hp & Hnil).
    symmetry in Hnil. apply app_eq_nil in Hnil as [-> _].
    by destruct (proj1 (Forall_forall _ _) pats_nonempty [] Hp).
  - destruct (Py.drop_one pats l) as [r|] eqn:Hr; [|done].
    apply IH. apply drop_one_Some in Hr as (p & Hp & ->).
    rewrite length_app in Hl.
    assert (p ≠ []) by (by apply (proj1 (Forall_forall _ _) pats_nonempty)).
    destruct p; [done|]. simpl in Hl. lia.
Qed.

Lemma lstrip_chars_split l :
  ∃ ps, Forall (λ p, p ∈ pats) ps ∧ l = concat ps ++ Py.lstrip_chars pats l.
Proof. apply lstrip_go_split. Qed.

Lemma lstrip_chars_done l p :
  p ∈ pats → ¬ p `prefix_of` Py.lstrip_chars pats l.
Proof. intros Hp. eapply drop_one_None; [|done]. by apply lstrip_go_done. Qed.

(** No character of [pats] starts another one. *)
Hypothesis pats_prefix_free :
  ∀ p q, p ∈ pats → q ∈ pats → p `prefix_of` q → p = q.

Lemma drop_one_app p r : p ∈ pats → Py.drop_one pats (p ++ r) = Some r.
Proof.
  intros Hp.
  destruct (drop_one_prefix pats (p ++ r) p Hp) as [r' Hr']; [by exists r|].
  rewrite Hr'. apply drop_one_Some in Hr' as (q & Hq & Heq).
  assert (p = q) as <-.
  { destruct (prefix_weak_total p q (p ++ r)) as [?|?];
      [by exists r|by exists r'|by apply pats_prefix_free|].
    symmetry. by apply pats_prefix_free. }
  by apply app_inv_head in Heq as <-.
Qed.

Lemma lstrip_go_all ps fuel :
  Forall (λ p, p ∈ pats) ps → (length (concat ps) ≤ fuel)%nat →
  Py.lstrip_go pats fuel (concat ps) = [].
Proof.
  intros Hps. revert fuel. induction Hps as [|p ps Hp Hps IH]; intros fuel Hf.
  - simpl. destruct fuel; [done|]. simpl.
    destruct (Py.drop_one pats []) as [r|] eqn:Hr; [|done].
    apply drop_one_Some in Hr as (q & Hq & Hnil).
    symmetry in Hnil. apply app_eq_nil in Hnil as [-> _].
    by destruct (proj1 (Forall_forall _ _) pats_nonempty [] Hq).
  - simpl in *. rewrite length_app in Hf.
    assert (p ≠ []) by (by apply (proj1 (Forall_forall _ _) pats_nonempty)).
    destruct fuel as [|fuel]; [destruct p; [done|simpl in Hf; lia]|].
    simpl. rewrite drop_one_app by done. apply IH.
    destruct p; [done|simpl in Hf; lia].
Qed.
End lstrip.

Ltac by_computation := apply (bool_decide_unpack _); vm_compute; exact I.

Lemma whitespace_nonempty : Forall (λ p, p ≠ []) Py.whitespace.
Proof. by_computation. Qed.

Lemma whitespace_prefix_free p q :
  p ∈ Py.whitespace → q ∈ Py.whitespace → p `prefix_of` q → p = q.
Proof.
  assert (Forall (λ p, Forall (λ q, p `prefix_of` q → p = q) Py.whitespace)
            Py.whitespace) as H by by_computation.
  intros Hp Hq. rewrite Forall_forall in H. specialize (H p Hp).
  rewrite Forall_forall in H. by apply H.
Qed.

Lemma chars_str_of l : Py.chars (Py.str_of l) = l.
Proof. apply String.list_ascii_of_string_of_list_ascii. Qed.

Lemma reversed_nonempty :
  Forall (λ p, p ≠ []) (reverse <$> Py.whitespace).
Proof. by_computation. Qed.

(** [strip] takes whitespace characters off both ends, and only those;
    what it returns neither starts nor ends with one. *)
Lemma strip_spec s :
  ∃ pre post, all_space pre ∧ all_space post ∧
    Py.chars s = pre ++ Py.chars (Py.strip s) ++ post ∧
    (∀ p, p ∈ Py.whitespace → ¬ p `prefix_of` Py.chars (Py.strip s)) ∧
    (∀ p, p ∈ Py.whitespace → ¬ p `suffix_of` Py.chars (Py.strip s)).
Proof.
  unfold Py.strip. rewrite chars_str_of.
  set (a := Py.lstrip_chars Py.whitespace (Py.chars s)).
  set (b := Py.lstrip_chars (reverse <$> Py.whitespace) (reverse a)).
  destruct (lstrip_chars_split Py.whitespace (Py.chars s)) as (ps & Hps & Hs).
  destruct (lstrip_chars_split (reverse <$> Py.whitespace) (reverse a))
    as (qs & Hqs & Ha).
  fold a in Hs. fold b in Ha.
  assert (a = reverse b ++ concat (reverse (reverse <$> qs))) as Ha'.
  { rewrite <-(reverse_involutive a), Ha, reverse_app. f_equal.
    clear. induction qs as [|q qs IH]; [done|].
    rewrite fmap_cons, reverse_cons, concat_app. simpl.
    rewrite reverse_app, IH, app_nil_r. done. }
  exists (concat ps), (concat (reverse (reverse <$> qs))).
  split_and!.
  - by exists ps.
  - eexists. split; [|done]. apply Forall_reverse, Forall_fmap.
    eapply Forall_impl; [exact Hqs|]. cbv beta.
    intros q (p & -> & Hp)%list_elem_of_fmap.
    unfold compose. by rewrite reverse_involutive.
  - rewrite Hs at 1. by rewrite Ha'.
  - intros p Hp Hpre.
    apply (lstrip_chars_done Py.whitespace whitespace_nonempty (Py.chars s) p Hp).
    fold a. rewrite Ha'. by apply prefix_app_r.
  - intros p Hp [k Hsuf].
    apply (lstrip_chars_done _ reversed_nonempty (reverse a) (reverse p)).
    + apply list_elem_of_fmap. by exists p.
    + fold b. exists (reverse k).
      by rewrite <-reverse_app, <-Hsuf, reverse_involutive.
Qed.

Lemma strip_all_space s : all_space (Py.chars s) → Py.strip s = "".
Proof.
  intros (ps & Hps & Hs). unfold Py.strip, Py.lstrip_chars. rewrite Hs.
  rewrite lstrip_go_all;
    [done|apply whitespace_nonempty|apply whitespace_prefix_free|done|done].
Qed.

Lemma strip_empty : Py.strip "" = "".
Proof. done. Qed.

Example utf8_check_mark : Py.utf8 9989 = "✅".
Proof. reflexivity. Qed.

(** Spaces, a tab, a newline and a no-break space (U+00A0) go; the space
    inside stays. *)
Example strip_hello :
  Py.strip (" " +:+ Py.utf8 9 +:+ "Hello world" +:+ Py.utf8 160 +:+ Py.utf8 10)
  = "Hello world".
Proof. vm_compute. reflexivity. Qed.

(** ** Toggling *)

Lemma elem_of_toggle x y s :
  y ∈ toggle x s ↔ (if decide (y = x) then y ∉ s else y ∈ s).
Proof.
  unfold toggle.
  destruct (bool_decide (x ∈ s)) eqn:Hx; destruct (decide (y = x)) as [->|Hy].
  - apply bool_decide_eq_true in Hx.
    rewrite elem_of_difference, elem_of_singleton. intuition.
  - rewrite elem_of_difference, elem_of_singleton. tauto.
  - apply bool_decide_eq_false in Hx.
    rewrite elem_of_union, elem_of_singleton. intuition.
  - rewrite elem_of_union, elem_of_singleton. tauto.
Qed.

Lemma count_cons x t l :
  count x (t :: l) = if decide (t = x) then S (count x l) else count x l.
Proof. unfold count. rewrite filter_cons. by case_decide. Qed.

Lemma elem_of_toggles x tags sel :
  x ∈ foldl (λ s t, toggle t s) sel tags
  ↔ (if Nat.odd (count x tags) then x ∉ sel else x ∈ sel).
Proof.
  revert sel. induction tags as [|t tags IH]; intros sel; simpl; [done|].
  rewrite IH, count_cons.
  destruct (decide (t = x)) as [->|Ht].
  - rewrite Nat.odd_succ, <-Nat.negb_odd.
    destruct (Nat.odd (count x tags)); simpl; rewrite elem_of_toggle;
      rewrite decide_True by done; [|done].
    split; [by intros ?%dec_stable|by intros ??].
  - destruct (Nat.odd (count x tags)); rewrite elem_of_toggle;
      by rewrite decide_False by done.
Qed.

Lemma toggled_session user tag p sel w :
  session (id user) w = Some (p, sel) →
  session (id user) (toggled user tag sel w) = Some (p, toggle tag sel).
Proof.
  unfold session, selected_set, toggled, dict_of. simpl.
  rewrite !lookup_insert_eq. simpl. rewrite lookup_insert_eq.
  destruct (pending_message (default empty_dict (user_data w !! id user)));
    [|done].
  simpl. destruct (match selected_tags _ with Some _ => _ | None => _ end);
    [|done].
  by intros [= -> _].
Qed.

(** ** Updates, one at a time *)

Lemma process_begin w e text :
  begin_text e = Some text →
  ∃ intro, process w e
           = opened (effective_user (upd e)) text (utcnow (outside e)) intro w.
Proof.
  unfold begin_text, process, dispatch. destruct (kind e); try done.
  - intros [= <-]. rewrite handle_text_run. by eexists.
  - destruct (whisper (outside e)) as [t|] eqn:Ht; [|done].
    intros [= <-]. erewrite handle_audio_run by done. by eexists.
Qed.

Lemma process_toggle user tag env w p sel :
  session (id user) w = Some (p, sel) →
  process w (toggle_event user tag env) = toggled user tag sel w.
Proof.
  intros Hs. unfold process.
  change (dispatch _ _ _)
    with (button_handler (upd (toggle_event user tag env)) env).
  by rewrite (button_toggle_run (upd (toggle_event user tag env)) env w tag p
                sel eq_refl Hs).
Qed.

Lemma process_done user env w p sel :
  session (id user) w = Some (p, sel) → insert_ok env = true →
  process w (done_event user env) = saved user p sel w.
Proof.
  intros Hs Hok. unfold process.
  change (dispatch _ _ _) with (button_handler (upd (done_event user env)) env).
  by rewrite (button_done_run (upd (done_event user env)) env w p sel eq_refl
                Hs Hok).
Qed.

Lemma process_done_fails user env w p sel :
  session (id user) w = Some (p, sel) → insert_ok env = false →
  process w (done_event user env)
  = with_log (λ l, l ++ [PersistenceError]) (answered user w).
Proof.
  intros Hs Hok. unfold process.
  change (dispatch _ _ _) with (button_handler (upd (done_event user env)) env).
  by rewrite (button_done_fails (upd (done_event user env)) env w p sel
                eq_refl Hs Hok).
Qed.

Lemma process_no_session user data env w :
  pending_message (dict_of (id user) w) = None →
  process w (button_event user data env) = nothing_to_store user w.
Proof.
  intros Hp. unfold process.
  change (dispatch _ _ _)
    with (button_handler (upd (button_event user data env)) env).
  by rewrite (button_no_session (upd (button_event user data env)) env w Hp).
Qed.

Lemma process_keeps_absent uid w e :
  pending_message (dict_of uid w) = None → ¬ begins uid e →
  pending_message (dict_of uid (process w e)) = None.
Proof.
  intros Hp Hb. destruct (decide (id (effective_user (upd e)) = uid)) as [<-|Hu].
  - destruct e as [k u o]. simpl in *.
    assert (begin_text {| kind := k; upd := u; outside := o |} = None) as Hn.
    { destruct (begin_text _) eqn:H; [|done]. destruct Hb. by split. }
    unfold begin_text in Hn. simpl in Hn. unfold process. simpl.
    destruct k; simpl in *; try done.
    + destruct (whisper o) eqn:Hw; [done|].
      by rewrite (handle_audio_fails u o w Hw).
    + by rewrite (button_no_session u o w Hp).
  - destruct (process_only w e) as [_ H]. unfold dict_of in *.
    by rewrite H.
Qed.

Lemma run_keeps_absent uid evs w :
  pending_message (dict_of uid w) = None → Forall (λ e, ¬ begins uid e) evs →
  pending_message (dict_of uid (run w evs)) = None.
Proof.
  intros Hp Hevs. revert w Hp.
  induction Hevs as [|e evs He _ IH]; intros w Hp; [done|].
  apply IH. by apply process_keeps_absent.
Qed.

Lemma dispatch_begin w e text :
  begin_text e = Some text →
  ∃ intro, dispatch (kind e) (upd e) (outside e) w
           = (Ok tt, opened (effective_user (upd e)) text (utcnow (outside e))
                       intro w).
Proof.
  unfold begin_text, dispatch. destruct (kind e); try done.
  - intros [= <-]. rewrite handle_text_run. by eexists.
  - destruct (whisper (outside e)) as [t|] eqn:Ht; [|done].
    intros [= <-]. erewrite handle_audio_run by done. by eexists.
Qed.

Lemma saved_session user p sel w : session (id user) (saved user p sel w) = None.
Proof. unfold session, dict_of, saved. simpl. by rewrite lookup_insert_eq. Qed.

Lemma answered_session user uid w p sel :
  session uid w = Some (p, sel) →
  session uid (answered user w) = Some (p, sel).
Proof.
  unfold session, selected_set, dict_of, answered. simpl.
  destruct (pending_message _); [|done]. simpl.
  destruct (selected_tags _) as [l|]; [|done].
  destruct (heap w !! l) as [s|] eqn:Hl; [|done].
  rewrite lookup_insert_ne, Hl; [done|].
  intros <-. apply (is_fresh (dom (heap w))). by apply elem_of_dom.
Qed.

(** ** Rows of two *)

Lemma list_ind_two {A} (P : list A → Prop) :
  P [] → (∀ a, P [a]) → (∀ a b r, P r → P (a :: b :: r)) → ∀ l, P l.
Proof.
  intros H0 H1 H2 l. enough (P l ∧ ∀ a, P (a :: l)) as [? _] by done.
  induction l as [|b l [IH1 IH2]]; [by split|].
  split; [apply IH2|]. intros a. by apply H2.
Qed.

Lemma rows_of_two_concat {A} (l : list A) : concat (rows_of_two l) = l.
Proof.
  induction l as [|a|a b r IH] using list_ind_two; try done.
  simpl. by rewrite IH.
Qed.

Lemma rows_of_two_length {A} (l : list A) :
  length (rows_of_two l) = Nat.div2 (S (length l)).
Proof.
  induction l as [|a|a b r IH] using list_ind_two; try done.
  simpl in *. by rewrite IH.
Qed.

Lemma rows_of_two_lookup {A} (l : list A) i :
  (i < length (rows_of_two l))%nat →
  rows_of_two l !! i = Some (take 2 (drop (2 * i) l)).
Proof.
  revert i. induction l as [|a|a b r IH] using list_ind_two; intros i Hi.
  - simpl in Hi. lia.
  - destruct i; [done|]. simpl in Hi. lia.
  - destruct i as [|i]; [done|].
    replace (2 * S i)%nat with (S (S (2 * i))) by lia.
    apply IH. simpl in Hi. lia.
Qed.

Lemma concat_fmap_rows {A B} (f : A → B) (rs : list (list A)) :
  concat ((λ r : list A, f <$> r) <$> rs) = f <$> concat rs.
Proof.
  induction rs as [|r rs IH]; [done|].
  rewrite fmap_cons. cbn [concat]. by rewrite IH, fmap_app.
Qed.

(** ** Reachable states *)

Lemma well_formed_session w uid p :
  well_formed w → pending_message (dict_of uid w) = Some p →
  ∃ sel, session uid w = Some (p, sel).
Proof.
  intros Hwf Hp. unfold session, selected_set. rewrite Hp. simpl.
  unfold dict_of in *.
  destruct (user_data w !! uid) as [d|] eqn:Hd; simpl in *; [|done].
  destruct (selected_tags d) as [l|] eqn:Hl; [|by eexists].
  destruct (Hwf uid d l Hd Hl) as [sel ->]. by eexists.
Qed.

(** In a well-formed state the handlers make exactly the transitions of
    [step]. *)
Lemma process_step w e : well_formed w → step w e (process w e).
Proof.
  intros Hwf. destruct e as [k u o]. unfold process. destruct k; simpl.
  - rewrite handle_text_run. by constructor.
  - by constructor.
  - destruct (whisper o) as [t|] eqn:Ht.
    + rewrite (handle_audio_run u o w t Ht). by constructor.
    + rewrite (handle_audio_fails u o w Ht). by constructor.
  - destruct (pending_message (dict_of (id (effective_user u)) w)) as [p|]
      eqn:Hp; last first.
    { rewrite (button_no_session u o w Hp). by constructor. }
    destruct (well_formed_session w _ p Hwf Hp) as [sel Hs].
    destruct (Py.startswith "tag:" (query_data u)) eqn:Htag.
    { apply startswith_inv in Htag as [tag Htag].
      rewrite (button_toggle_run u o w tag p sel Htag Hs).
      by eapply step_toggle. }
    destruct (decide (query_data u = "done")) as [Hdone|Hdone].
    { destruct (insert_ok o) eqn:Hok.
      - rewrite (button_done_run u o w p sel Hdone Hs Hok).
        by eapply step_done.
      - rewrite (button_done_fails u o w p sel Hdone Hs Hok).
        by eapply step_done_fails. }
    rewrite (button_other_run u o w p Hp Htag Hdone).
    by eapply step_other.
Qed.

Lemma well_formed_step w w' :
  well_formed w →
  (∀ l, is_Some (heap w !! l) → is_Some (heap w' !! l)) →
  (∀ uid d, user_data w' !! uid = Some d →
     user_data w !! uid = Some d ∨
     ∀ l, selected_tags d = Some l → is_Some (heap w' !! l)) →
  well_formed w'.
Proof.
  intros Hwf Hheap Hdict uid d l Hd Hl.
  destruct (Hdict uid d Hd) as [Hold|Hnew]; [|by apply Hnew].
  apply Hheap. by apply (Hwf uid d l).
Qed.

Lemma lookup_insert_is_Some_mono (h : gmap loc (gset string)) k v l :
  is_Some (h !! l) → is_Some (<[k:=v]> h !! l).
Proof.
  intros H. destruct (decide (k = l)) as [->|Hk].
  - rewrite lookup_insert_eq. by eexists.
  - by rewrite lookup_insert_ne.
Qed.

Lemma step_well_formed w e w' : well_formed w → step w e w' → well_formed w'.
Proof.
  intros Hwf Hstep.
  inversion Hstep; subst; try done;
    apply (well_formed_step w); try done;
    unfold opened, toggled, saved, answered, nothing_to_store; simpl;
    try (intros l Hl; by repeat apply lookup_insert_is_Some_mono);
    try (intros uid d Hd; by left);
    intros uid d [[<- <-]|[_ Hd]]%lookup_insert_Some; try (by left); right;
    simpl; try done; intros l [= <-].
  - apply lookup_insert_is_Some_mono. rewrite lookup_insert_eq. by eexists.
  - apply lookup_insert_is_Some_mono. rewrite lookup_insert_eq. by eexists.
  - rewrite lookup_insert_eq. by eexists.
Qed.

Lemma run_snoc w evs e : run w (evs ++ [e]) = process (run w evs) e.
Proof. unfold run. by rewrite foldl_app. Qed.

(** A property of the initial state that every update keeps holds in every
    reachable state. *)
Lemma reachable_ind (P : World → Prop) :
  P initial_world → (∀ w e, reachable w → P w → P (process w e)) →
  ∀ w, reachable w → P w.
Proof.
  intros H0 Hstep w [evs ->].
  induction evs as [|e evs IH] using rev_ind; [done|].
  rewrite run_snoc. apply Hstep; [by exists evs|done].
Qed.

Lemma reachable_well_formed w : reachable w → well_formed w.
Proof.
  revert w. apply reachable_ind.
  - intros uid d l Hd. simpl in Hd. by rewrite lookup_empty in Hd.
  - intros w e _ Hwf. eapply step_well_formed; [done|by apply process_step].
Qed.

(** In a reachable state a pending message always comes with its set of
    selected tags: a session is active exactly when ["pending_message"] is
    in the dictionary. *)
Lemma reachable_session w uid p :
  reachable w → pending_message (dict_of uid w) = Some p →
  ∃ sel, session uid w = Some (p, sel).
Proof. intros Hw. by apply well_formed_session, reachable_well_formed. Qed.

(** The catalogue is never changed. *)
Lemma reachable_catalogue w :
  reachable w → TAG_KEYS w = ["Tag1"; "Tag2"; "Tag3"; "Tag4"].
Proof.
  revert w. apply reachable_ind; [done|].
  intros w e _ <-. by destruct (process_only w e).
Qed.

(** The only exceptions that leave a handler are those of the two
    services: no key, index or address is ever missing. *)
Lemma reachable_log w :
  reachable w →
  Forall (λ exn, exn = TranscriptionError ∨ exn = PersistenceError) (log w).
Proof.
  revert w. apply reachable_ind; [by constructor|].
  intros w e Hw%reachable_well_formed Hlog.
  pose proof (process_step w e Hw) as Hstep.
  inversion Hstep; try done; simpl; try congruence;
    apply Forall_app; (split; [done|]); constructor; auto.
Qed.

(** ** Users do not share sets *)

Lemma separated_insert w w' uid d :
  well_formed w → separated w →
  user_data w' = <[uid:=d]> (user_data w) →
  (∀ l, selected_tags d = Some l →
     heap w !! l = None ∨ selected_tags (dict_of uid w) = Some l) →
  separated w'.
Proof.
  intros Hwf Hsep Hud Hd u1 u2 d1 d2 l. rewrite Hud.
  assert (∀ u d', u ≠ uid → user_data w !! u = Some d' →
            selected_tags d' = Some l → selected_tags d = Some l → False)
    as Hclash.
  { intros u d' Hu Hd' Hl' Hl. destruct (Hd l Hl) as [Hnone|Hold].
    - destruct (Hwf u d' l Hd' Hl') as [? ?]. congruence.
    - unfold dict_of in Hold.
      destruct (user_data w !! uid) as [d0|] eqn:Hd0; [|done].
      by destruct Hu; apply (Hsep u uid d' d0 l). }
  intros [[<- <-]|[Hu1 H1]]%lookup_insert_Some
         [[<- <-]|[Hu2 H2]]%lookup_insert_Some Hl1 Hl2; try done.
  - by destruct (Hclash u2 d2).
  - by destruct (Hclash u1 d1).
  - by apply (Hsep u1 u2 d1 d2 l).
Qed.

Lemma fresh_not_alive (h : gmap loc (gset string)) : h !! fresh (dom h) = None.
Proof. apply not_elem_of_dom, is_fresh. Qed.

Lemma step_separated w e w' :
  well_formed w → separated w → step w e w' → separated w'.
Proof.
  intros Hwf Hsep Hstep.
  inversion Hstep; subst; try done.
  - eapply (separated_insert w); [done..|]. simpl.
    intros l [= <-]. left. apply fresh_not_alive.
  - eapply (separated_insert w); [done..|]. simpl.
    intros l [= <-]. left. apply fresh_not_alive.
  - eapply (separated_insert w); [done..|]. simpl.
    intros l [= <-].
    destruct (selected_tags (dict_of _ w)); [by right|left].
    apply fresh_not_alive.
  - eapply (separated_insert w); [done..|]. done.
Qed.

(** Both invariants hold in every reachable state. *)
Lemma reachable_separated w : reachable w → separated w.
Proof.
  intros Hw. enough (well_formed w ∧ separated w) as [_ ?] by done.
  revert w Hw. apply reachable_ind.
  - split; intros ???; simpl; intros; simplify_map_eq.
  - intros w e _ [Hwf Hsep]. pose proof (process_step w e Hwf). split.
    + by eapply step_well_formed.
    + by eapply step_separated.
Qed.

Lemma session_frame w w' uid p sel :
  session uid w = Some (p, sel) →
  user_data w' !! uid = user_data w !! uid →
  (∀ l s, selected_tags (dict_of uid w) = Some l → heap w !! l = Some s →
          heap w' !! l = Some s) →
  session uid w' = Some (p, sel).
Proof.
  unfold session, selected_set, dict_of. intros Hs -> Hheap.
  destruct (pending_message _); [|done]. simpl in *.
  destruct (selected_tags _) as [l|]; [|done].
  destruct (heap w !! l) as [s|] eqn:Hl; [|done].
  by rewrite (Hheap l s eq_refl Hl).
Qed.

Lemma insert_fresh_alive (h : gmap loc (gset string)) v l s :
  h !! l = Some s → <[fresh (dom h):=v]> h !! l = Some s.
Proof.
  intros Hl. rewrite lookup_insert_ne; [done|].
  intros <-. by rewrite fresh_not_alive in Hl.
Qed.

Lemma separated_dict_of w u1 u2 l :
  separated w →
  selected_tags (dict_of u1 w) = Some l →
  selected_tags (dict_of u2 w) = Some l → u1 = u2.
Proof.
  unfold dict_of. intros Hsep H1 H2.
  destruct (user_data w !! u1) as [d1|] eqn:Hd1; [|done].
  destruct (user_data w !! u2) as [d2|] eqn:Hd2; [|done].
  by apply (Hsep u1 u2 d1 d2 l).
Qed.

(** An update of another user leaves the session as it is. *)
Lemma step_session_other w e w' uid p sel :
  separated w → step w e w' →
  id (effective_user (upd e)) ≠ uid →
  session uid w = Some (p, sel) →
  session uid w' = Some (p, sel).
Proof.
  intros Hsep Hstep Hu Hs.
  inversion Hstep; subst; try done;
    (apply (session_frame w);
     [done|simpl; by rewrite ?lookup_insert_ne|simpl; intros l s Hl Halive]);
    try (by repeat apply insert_fresh_alive); try done.
  rewrite lookup_insert_ne; [by apply insert_fresh_alive|].
  destruct (selected_tags (dict_of (id (effective_user (upd e))) w)) as [l0|]
    eqn:Hl0; simpl.
  - intros ->. by destruct Hu; apply (separated_dict_of w _ _ l).
  - intros <-. by rewrite fresh_not_alive in Halive.
Qed.

(** What an update that neither opens nor completes the session of [uid]
    does to it: a pressed tag button of [uid] flips that tag, anything else
    changes nothing. *)
Lemma step_session w e w' uid p sel :
  separated w → step w e w' →
  ¬ begins uid e → ¬ completes uid e →
  session uid w = Some (p, sel) →
  session uid w'
  = Some (p, match press uid e with Some t => toggle t sel | None => sel end).
Proof.
  intros Hsep Hstep Hb Hc Hs.
  destruct (decide (id (effective_user (upd e)) = uid)) as [<-|Hu]; last first.
  { assert (press uid e = None) as ->.
    { unfold press. destruct (kind e); try done.
      by rewrite bool_decide_false. }
    by apply (step_session_other w e). }
  unfold press, begins, completes, begin_text in *.
  inversion Hstep as [Hk|Hk|t Hk Ht|Hk Ht|Hk Hp|tag p' sel' Hk Hs' Hd
                     |p' sel' Hk Hs' Hd Hok|p' sel' Hk Hs' Hd Hok
                     |p' sel' Hk Hs' Htag Hd]; subst; rewrite Hk in *.
  - destruct Hb. by split.
  - done.
  - destruct Hb. split; [done|]. by rewrite Ht.
  - done.
  - unfold session in Hs. by rewrite Hp in Hs.
  - rewrite Hs in Hs'. injection Hs' as <- <-.
    rewrite bool_decide_true, Hd, startswith_tag, split1_tag by done.
    by apply toggled_session.
  - by destruct Hc.
  - rewrite bool_decide_true, Hd by done.
    change (Py.startswith "tag:" "done") with false. simpl.
    exact (answered_session (effective_user (upd e)) _ w p sel Hs).
  - rewrite bool_decide_true, Htag by done. simpl.
    exact (answered_session (effective_user (upd e)) _ w p sel Hs).
Qed.

Lemma reachable_process w e : reachable w → reachable (process w e).
Proof. intros [evs ->]. exists (evs ++ [e]). by rewrite run_snoc. Qed.

Lemma press_toggle_event user tag env :
  press (id user) (toggle_event user tag env) = Some tag.
Proof.
  unfold press, toggle_event, button_event.
  cbn [kind upd query_data effective_user].
  by rewrite bool_decide_true, startswith_tag, split1_tag.
Qed.

(** Pressing a tag button neither opens nor completes a session. *)
Lemma toggle_event_between uid user tag env :
  ¬ begins uid (toggle_event user tag env) ∧
  ¬ completes uid (toggle_event user tag env).
Proof.
  split.
  - by intros [_ [? ?]].
  - intros (_ & _ & Hd & _). simpl in Hd. discriminate Hd.
Qed.

(** Nor does any update of another user. *)
Lemma other_user_between uid e :
  id (effective_user (upd e)) ≠ uid → ¬ begins uid e ∧ ¬ completes uid e.
Proof. intros Hu. split; [by intros [? _]|by intros (_ & ? & _)]. Qed.

(** The same along a run of the program. *)
Lemma run_session uid evs w p sel :
  reachable w →
  Forall (λ e, ¬ begins uid e ∧ ¬ completes uid e) evs →
  session uid w = Some (p, sel) →
  session uid (run w evs)
  = Some (p, foldl (λ s t, toggle t s) sel (omap (press uid) evs)).
Proof.
  intros Hw Hevs. revert w sel Hw.
  induction Hevs as [|e evs [Hb Hc] _ IH]; intros w sel Hw Hs; [done|].
  change (run w (e :: evs)) with (run (process w e) evs).
  pose proof (reachable_process w e Hw) as Hw'.
  pose proof (process_step w e (reachable_well_formed w Hw)) as Hstep.
  pose proof (step_session w e _ uid p sel (reachable_separated w Hw) Hstep
                Hb Hc Hs) as Hs'.
  rewrite (IH _ _ Hw' Hs'). simpl. by destruct (press uid e).
Qed.

(** * The claims *)

(** C1. Pressing "Done" on an active session inserts exactly one row into
    [diary_messages].  Its tags are the members of the selected set at that
    moment, each once; its text and time are those of the message that
    opened the session, whatever the user toggled and whatever other users
    did since; the session is gone afterwards. *)
Theorem done_persists_session (user : User) (w : World) (b : Event)
    (text : string) (evs : list Event) (env : Outside) :
  reachable w →
  id (effective_user (upd b)) = id user →
  begin_text b = Some text →
  Forall (λ e, ¬ begins (id user) e ∧ ¬ completes (id user) e) evs →
  insert_ok env = true →
  let w1 := run (process w b) evs in
  let w2 := process w1 (done_event user env) in
  ∃ sel,
    session (id user) w1
      = Some ({| p_text := text; p_ts := utcnow (outside b) |}, sel) ∧
    diary_messages w2
      = diary_messages w1 ++
        [{| telegram_id := id user; ts := utcnow (outside b);
            row_text := text; tags := elements sel |}] ∧
    NoDup (elements sel) ∧
    (∀ x, x ∈ elements sel ↔ x ∈ sel) ∧
    session (id user) w2 = None.
Proof.
  intros Hw Hu Hb Hevs Hok w1 w2.
  destruct (process_begin w b text Hb) as [intro Hwb].
  pose proof (opened_session (effective_user (upd b)) text
                (utcnow (outside b)) intro w) as Hs.
  rewrite <-Hwb, Hu in Hs.
  pose proof (run_session (id user) evs _ _ _ (reachable_process w b Hw)
                Hevs Hs) as Hs1.
  fold w1 in Hs1. eexists. split; [exact Hs1|].
  subst w2. rewrite (process_done _ _ _ _ _ Hs1 Hok).
  split_and!.
  - done.
  - apply NoDup_elements.
  - intros x. apply elem_of_elements.
  - apply saved_session.
Qed.

(** C2. From the message that opened the session on, an identifier is
    selected exactly when the user pressed its button an odd number of
    times, whether or not it is a key of the catalogue and whatever else
    happened in between; one more press flips it and changes the
    membership of no other identifier. *)
Theorem toggle_parity (user : User) (w : World) (b : Event) (text : string)
    (evs : list Event) (x : string) :
  reachable w →
  id (effective_user (upd b)) = id user →
  begin_text b = Some text →
  Forall (λ e, ¬ begins (id user) e ∧ ¬ completes (id user) e) evs →
  let w1 := run (process w b) evs in
  ∃ p sel,
    session (id user) w1 = Some (p, sel) ∧
    (x ∈ sel ↔ Nat.odd (count x (omap (press (id user)) evs)) = true) ∧
    ∀ env, ∃ sel',
      session (id user) (process w1 (toggle_event user x env)) = Some (p, sel') ∧
      (x ∈ sel' ↔ x ∉ sel) ∧
      (∀ y, y ≠ x → (y ∈ sel' ↔ y ∈ sel)).
Proof.
  intros Hw Hu Hb Hevs w1.
  destruct (process_begin w b text Hb) as [intro Hwb].
  pose proof (opened_session (effective_user (upd b)) text
                (utcnow (outside b)) intro w) as Hs.
  rewrite <-Hwb, Hu in Hs.
  pose proof (run_session (id user) evs _ _ _ (reachable_process w b Hw)
                Hevs Hs) as Hs1.
  fold w1 in Hs1. do 2 eexists. split; [exact Hs1|]. split.
  - rewrite elem_of_toggles.
    destruct (Nat.odd (count x _)); [|by rewrite elem_of_empty].
    split; [done|]. intros _. apply not_elem_of_empty.
  - intros env. eexists. rewrite (process_toggle _ _ _ _ _ _ Hs1).
    split; [by apply toggled_session|]. split.
    + by rewrite elem_of_toggle, decide_True.
    + intros y Hy. by rewrite elem_of_toggle, decide_False.
Qed.

(** C10. Pressing a tag button on an active session leaves the pending
    entry as it is: same text, same time.  Only the selected set of that
    user changes; the table, the catalogue and the other users'
    dictionaries are the same. *)
Theorem toggle_keeps_pending (user : User) (w : World) (p : Pending)
    (sel : gset string) (tag : string) (env : Outside) :
  session (id user) w = Some (p, sel) →
  let w' := process w (toggle_event user tag env) in
  pending_message (dict_of (id user) w') = Some p ∧
  pending_message (dict_of (id user) w) = Some p ∧
  session (id user) w' = Some (p, toggle tag sel) ∧
  diary_messages w' = diary_messages w ∧
  TAG_KEYS w' = TAG_KEYS w ∧
  ∀ u, u ≠ id user → user_data w' !! u = user_data w !! u.
Proof.
  intros Hs w'. subst w'. rewrite (process_toggle _ _ _ _ _ _ Hs).
  pose proof (toggled_session user tag p sel w Hs) as Hs'.
  assert (∀ w0 q s, session (id user) w0 = Some (q, s) →
            pending_message (dict_of (id user) w0) = Some q) as Hpending.
  { unfold session. intros w0 q s.
    destruct (pending_message _); [|done]. simpl.
    destruct (selected_set _ _); [|done]. by intros [= -> _]. }
  split_and!; try done.
  - by apply Hpending in Hs'.
  - by apply Hpending in Hs.
  - intros u Hu. unfold toggled. simpl. by rewrite lookup_insert_ne.
Qed.

(** C5. A button pressed without a session (the "Done" button, a tag
    button, any other data) is answered with the text "Nothing to store";
    no row is inserted and nothing else in the state changes. *)
Theorem nothing_to_store_without_session (user : User) (w : World)
    (data : string) (env : Outside) :
  pending_message (dict_of (id user) w) = None →
  let r := button_handler (upd (button_event user data env)) env w in
  r.1 = Ok tt ∧
  process w (button_event user data env) = r.2 ∧
  outbox r.2 = outbox w ++
    [(id user, answer);
     (id user, edit_message_text
                 "Nothing to store – please send a new message first.")] ∧
  diary_messages r.2 = diary_messages w ∧
  user_data r.2 = user_data w ∧
  heap r.2 = heap w ∧
  TAG_KEYS r.2 = TAG_KEYS w ∧
  log r.2 = log w.
Proof.
  intros Hp r. subst r.
  rewrite (process_no_session _ _ _ _ Hp).
  rewrite (button_no_session (upd (button_event user data env)) env w Hp).
  done.
Qed.

(** C3. A successful "Done" clears the session.  From then on, as long as
    no message of that user opens a new one, the user has no session, and
    every button the user presses (tag or "Done") gets the "Nothing to
    store" answer, inserts no row and changes no dictionary and no set. *)
Theorem no_session_after_done (user : User) (w : World) (p : Pending)
    (sel : gset string) (env : Outside) (evs : list Event) :
  session (id user) w = Some (p, sel) →
  insert_ok env = true →
  Forall (λ e, ¬ begins (id user) e) evs →
  let w1 := process w (done_event user env) in
  let w2 := run w1 evs in
  pending_message (dict_of (id user) w1) = None ∧
  session (id user) w2 = None ∧
  ∀ data env',
    let r := button_handler (upd (button_event user data env')) env' w2 in
    r.1 = Ok tt ∧
    outbox r.2 = outbox w2 ++
      [(id user, answer);
       (id user, edit_message_text
                   "Nothing to store – please send a new message first.")] ∧
    diary_messages r.2 = diary_messages w2 ∧
    user_data r.2 = user_data w2 ∧
    heap r.2 = heap w2 ∧
    session (id user) r.2 = None.
Proof.
  intros Hs Hok Hevs w1 w2.
  assert (pending_message (dict_of (id user) w1) = None) as H1.
  { subst w1. rewrite (process_done _ _ _ _ _ Hs Hok).
    unfold dict_of, saved. simpl. by rewrite lookup_insert_eq. }
  assert (pending_message (dict_of (id user) w2) = None) as H2
    by by apply run_keeps_absent.
  split; [done|]. split; [unfold session; by rewrite H2|].
  intros data env' r. subst r.
  rewrite (button_no_session (upd (button_event user data env')) env' w2 H2).
  split_and!; try done.
  unfold session, nothing_to_store, dict_of in *. simpl. by rewrite H2.
Qed.

(** C9. When the insert raises, the handler stops there: the exception is
    logged, no row is inserted, and the session of the user is as it was,
    pending entry and selected tags.  Pressing "Done" again, with the
    database back, saves that same session. *)
Theorem failed_insert_keeps_session (user : User) (w : World) (p : Pending)
    (sel : gset string) (env : Outside) :
  session (id user) w = Some (p, sel) →
  insert_ok env = false →
  let r := button_handler (upd (done_event user env)) env w in
  let w' := process w (done_event user env) in
  r.1 = Raise PersistenceError ∧
  session (id user) w' = Some (p, sel) ∧
  user_data w' = user_data w ∧
  diary_messages w' = diary_messages w ∧
  log w' = log w ++ [PersistenceError] ∧
  ∀ env', insert_ok env' = true →
    diary_messages (process w' (done_event user env'))
    = diary_messages w ++
      [{| telegram_id := id user; ts := p_ts p; row_text := p_text p;
          tags := elements sel |}].
Proof.
  intros Hs Hfail r w'. subst r w'.
  rewrite (process_done_fails _ _ _ _ _ Hs Hfail).
  rewrite (button_done_fails (upd (done_event user env)) env w p sel eq_refl
             Hs Hfail).
  assert (session (id user)
            (with_log (λ l, l ++ [PersistenceError]) (answered user w))
          = Some (p, sel)) as Hs'.
  { by apply (answered_session user) in Hs. }
  split_and!; try done.
  intros env' Hok. by rewrite (process_done _ _ _ _ _ Hs' Hok).
Qed.

(** C4. A text message, or a voice message that was transcribed, opens a
    session whatever the state of the user was: the handler returns
    normally, the pending entry is the new one and nothing is selected.  So
    a second message, also after buttons were pressed, leaves nothing of
    the first. *)
Theorem begin_replaces_session (w : World) (b : Event) (text : string) :
  begin_text b = Some text →
  let uid := id (effective_user (upd b)) in
  let new := {| p_text := text; p_ts := utcnow (outside b) |} in
  (dispatch (kind b) (upd b) (outside b) w).1 = Ok tt ∧
  session uid (process w b) = Some (new, ∅) ∧
  log (process w b) = log w ∧
  diary_messages (process w b) = diary_messages w ∧
  ∀ (user : User) (b1 : Event) (presses : list (string * Outside)),
    id user = uid →
    let w' := run (process w b1) (toggle_events user presses) in
    (dispatch (kind b) (upd b) (outside b) w').1 = Ok tt ∧
    session uid (process w' b) = Some (new, ∅).
Proof.
  intros Hb uid new.
  assert (∀ w0, (dispatch (kind b) (upd b) (outside b) w0).1 = Ok tt ∧
            session uid (process w0 b) = Some (new, ∅) ∧
            log (process w0 b) = log w0 ∧
            diary_messages (process w0 b) = diary_messages w0) as H.
  { intros w0. destruct (dispatch_begin w0 b text Hb) as [intro Hd].
    unfold process. rewrite Hd. split_and!; try done. apply opened_session. }
  destruct (H w) as (? & ? & ? & ?). split_and!; try done.
  intros user b1 presses _ w'. destruct (H w') as (? & ? & _). done.
Qed.

(** C6, as the program has it.  The keyboard has the tags of the
    catalogue two per row in catalogue order (row [i] holds the tags
    [2i] and [2i+1], the last row one tag when their number is odd),
    then one row with the single button "Done".  The button of a tag is
    labelled with the key of the tag, underscores turned into spaces, and
    the label carries the check mark in front exactly when the key is
    selected. *)
Theorem keyboard_layout (w : World) (l : loc) (sel : gset string) :
  heap w !! l = Some sel →
  ∃ rows,
    (build_keyboard l w).1 = Ok (rows ++ [[done_button]]) ∧
    done_button = {| text := "💾 Done"; callback_data := "done" |} ∧
    length rows = Nat.div2 (S (length (TAG_KEYS w))) ∧
    (∀ i, (i < length rows)%nat →
       rows !! i = Some (button_of sel <$> take 2 (drop (2 * i) (TAG_KEYS w)))) ∧
    concat rows = button_of sel <$> TAG_KEYS w ∧
    ∀ key,
      callback_data (button_of sel key) = "tag:" +:+ key ∧
      (key ∈ sel →
       text (button_of sel key) = "✅ " +:+ Py.replace "_" " " key) ∧
      (key ∉ sel → text (button_of sel key) = Py.replace "_" " " key).
Proof.
  intros Hl. rewrite (build_keyboard_run l w sel Hl). unfold keyboard_of.
  eexists. split; [done|]. split; [done|]. split_and!.
  - by rewrite length_fmap, rows_of_two_length.
  - intros i Hi. rewrite length_fmap in Hi.
    by rewrite list_lookup_fmap, rows_of_two_lookup.
  - by rewrite concat_fmap_rows, rows_of_two_concat.
  - intros key. unfold button_of. simpl. split; [done|]. split; intros Hk.
    + by rewrite bool_decide_true.
    + by rewrite bool_decide_false.
Qed.

(** C6, as the specification words it, fails: with nothing selected the
    first button is labelled "Tag1", the key, where the description of
    that tag is "Desc 1". *)
Lemma label_is_key_not_description :
  let w := with_heap (insert 0%nat ∅) initial_world in
  ∃ kb,
    (build_keyboard 0%nat w).1 = Ok kb ∧
    text <$> head (concat kb) = Some "Tag1" ∧
    text <$> head (concat (spec_keyboard_of TAGS ∅)) = Some "Desc 1" ∧
    kb ≠ spec_keyboard_of TAGS ∅.
Proof.
  eexists. split; [vm_compute; reflexivity|]. split; [reflexivity|].
  split; [reflexivity|]. intros H. discriminate H.
Qed.

(** C7. The keyboard depends on the catalogue and on the members of the
    set it is given, on nothing else in the state, and building it changes
    nothing: not the catalogue, not the set, not any other part of the
    state.  Built twice, it is the same keyboard twice. *)
Theorem build_keyboard_pure (w1 w2 : World) (l1 l2 : loc) (sel : gset string) :
  TAG_KEYS w1 = TAG_KEYS w2 →
  heap w1 !! l1 = Some sel →
  heap w2 !! l2 = Some sel →
  ∃ kb,
    build_keyboard l1 w1 = (Ok kb, w1) ∧
    build_keyboard l2 w2 = (Ok kb, w2) ∧
    (first ← build_keyboard l1; second ← build_keyboard l1;
     mret (first, second)) w1 = (Ok (kb, kb), w1).
Proof.
  intros Hk H1 H2. exists (keyboard_of (TAG_KEYS w1) sel).
  rewrite (build_keyboard_run l1 w1 sel H1).
  rewrite (build_keyboard_run l2 w2 sel H2), Hk. split_and!; try done.
  erewrite bind_ok; last by apply build_keyboard_run.
  erewrite bind_ok; last by apply build_keyboard_run.
  by rewrite Hk.
Qed.

(** C8. The text a voice message opens its session with is the
    transcription with the whitespace taken off both ends, and only that;
    a transcription that is empty, or all whitespace, opens a session with
    the empty text.  From there the state is the one [handle_text] leaves
    for that text: same dictionaries, same sets, same table, same keyboard
    in the reply. *)
Theorem audio_session_text (w : World) (update : Update) (env : Outside)
    (t : string) :
  whisper env = Some t →
  let uid := id (effective_user update) in
  let r := handle_audio update env w in
  let as_text := {| effective_user := effective_user update;
                    message_text := Py.strip t;
                    query_data := query_data update |} in
  let r' := handle_text as_text env w in
  r.1 = Ok tt ∧
  session uid r.2 = Some ({| p_text := Py.strip t; p_ts := utcnow env |}, ∅) ∧
  (∃ pre post, all_space pre ∧ all_space post ∧
     Py.chars t = pre ++ Py.chars (Py.strip t) ++ post) ∧
  (∀ c, c ∈ Py.whitespace →
     ¬ c `prefix_of` Py.chars (Py.strip t) ∧
     ¬ c `suffix_of` Py.chars (Py.strip t)) ∧
  (all_space (Py.chars t) → Py.strip t = "") ∧
  (t = "" → session uid r.2 = Some ({| p_text := ""; p_ts := utcnow env |}, ∅)) ∧
  r'.1 = Ok tt ∧
  user_data r.2 = user_data r'.2 ∧
  heap r.2 = heap r'.2 ∧
  diary_messages r.2 = diary_messages r'.2 ∧
  ∃ body body' kb,
    outbox r.2 = outbox w ++ [(uid, reply_text body kb "Markdown")] ∧
    outbox r'.2 = outbox w ++ [(uid, reply_text body' kb "Markdown")].
Proof.
  intros Ht uid r as_text r'. subst r r'.
  rewrite (handle_audio_run update env w t Ht), handle_text_run.
  destruct (strip_spec t) as (pre & post & Hpre & Hpost & Hsplit & Hl & Hr).
  split_and!; try done.
  - apply opened_session.
  - by exists pre, post.
  - intros c Hc. split; [by apply Hl|by apply Hr].
  - apply strip_all_space.
  - intros ->. apply opened_session.
  - by do 3 eexists.
Qed.

(** * The claims on a run of the program *)

Lemma done_persists_session_witness :
  let w1 := run (process initial_world (text_event alice "Hello world" fine))
              between in
  reachable initial_world ∧
  Forall (λ e, ¬ begins 7 e ∧ ¬ completes 7 e) between ∧
  insert_ok fine = true ∧
  ∃ sel,
    session 7 w1 = Some ({| p_text := "Hello world"; p_ts := 1000 |}, sel) ∧
    diary_messages (process w1 (done_event alice fine))
      = diary_messages w1 ++
        [{| telegram_id := 7; ts := 1000; row_text := "Hello world";
            tags := elements sel |}] ∧
    NoDup (elements sel) ∧
    (∀ x, x ∈ elements sel ↔ x ∈ sel) ∧
    session 7 (process w1 (done_event alice fine)) = None.
Proof.
  assert (reachable initial_world) as Hw by by exists [].
  assert (Forall (λ e, ¬ begins 7 e ∧ ¬ completes 7 e) between) as Hevs.
  { repeat constructor;
      first [ apply toggle_event_between | by apply other_user_between ]. }
  split; [exact Hw|]. split; [exact Hevs|]. split; [reflexivity|].
  apply (done_persists_session alice initial_world
           (text_event alice "Hello world" fine) "Hello world" between fine);
    [exact Hw|reflexivity|reflexivity|exact Hevs|reflexivity].
Defined.

(** The scenario of the specification, computed. *)
Example hello_world_saved :
  diary_messages (process hello (done_event alice fine))
  = [{| telegram_id := 7; ts := 1000; row_text := "Hello world";
        tags := ["Tag2"] |}]
  ∧ session 7 (process hello (done_event alice fine)) = None.
Proof. vm_compute. done. Qed.

Lemma toggle_parity_witness :
  let w1 := run (process initial_world (audio_event alice fine)) between in
  reachable initial_world ∧
  begin_text (audio_event alice fine) = Some "Hello world" ∧
  Forall (λ e, ¬ begins 7 e ∧ ¬ completes 7 e) between ∧
  ∃ p sel,
    session 7 w1 = Some (p, sel) ∧
    ("Idea" ∈ sel ↔ Nat.odd (count "Idea" (omap (press 7) between)) = true) ∧
    ∀ env, ∃ sel',
      session 7 (process w1 (toggle_event alice "Idea" env)) = Some (p, sel') ∧
      ("Idea" ∈ sel' ↔ "Idea" ∉ sel) ∧
      (∀ y, y ≠ "Idea" → (y ∈ sel' ↔ y ∈ sel)).
Proof.
  assert (reachable initial_world) as Hw by by exists [].
  assert (Forall (λ e, ¬ begins 7 e ∧ ¬ completes 7 e) between) as Hevs.
  { repeat constructor;
      first [ apply toggle_event_between | by apply other_user_between ]. }
  split; [exact Hw|]. split; [reflexivity|]. split; [exact Hevs|].
  apply (toggle_parity alice initial_world (audio_event alice fine)
           "Hello world" between "Idea");
    [exact Hw|reflexivity|reflexivity|exact Hevs].
Defined.

(** In that run Alice pressed Tag1 twice and Idea once. *)
Example between_presses :
  omap (press 7) between = ["Tag1"; "Idea"; "Tag1"].
Proof. reflexivity. Qed.

Lemma toggle_keeps_pending_witness :
  let p := {| p_text := "Hello world"; p_ts := 1000 |} in
  let w' := process hello (toggle_event alice "Tag3" fine) in
  session 7 hello = Some (p, {["Tag2"]}) ∧
  pending_message (dict_of 7 w') = Some p ∧
  pending_message (dict_of 7 hello) = Some p ∧
  session 7 w' = Some (p, toggle "Tag3" {["Tag2"]}) ∧
  diary_messages w' = diary_messages hello ∧
  TAG_KEYS w' = TAG_KEYS hello ∧
  ∀ u, u ≠ 7%Z → user_data w' !! u = user_data hello !! u.
Proof.
  split; [vm_compute; reflexivity|].
  apply (toggle_keeps_pending alice hello
           {| p_text := "Hello world"; p_ts := 1000 |} {["Tag2"]} "Tag3" fine).
  vm_compute; reflexivity.
Defined.

Lemma nothing_to_store_without_session_witness :
  let r := button_handler (upd (button_event alice "done" fine)) fine
             initial_world in
  pending_message (dict_of 7 initial_world) = None ∧
  r.1 = Ok tt ∧
  process initial_world (button_event alice "done" fine) = r.2 ∧
  outbox r.2 = outbox initial_world ++
    [(7%Z, answer);
     (7%Z, edit_message_text
             "Nothing to store – please send a new message first.")] ∧
  diary_messages r.2 = diary_messages initial_world ∧
  user_data r.2 = user_data initial_world ∧
  heap r.2 = heap initial_world ∧
  TAG_KEYS r.2 = TAG_KEYS initial_world ∧
  log r.2 = log initial_world.
Proof.
  split; [reflexivity|].
  apply (nothing_to_store_without_session alice initial_world "done" fine).
  reflexivity.
Defined.

Lemma no_session_after_done_witness :
  let w1 := process hello (done_event alice fine) in
  let w2 := run w1 after_done in
  Forall (λ e, ¬ begins 7 e) after_done ∧
  pending_message (dict_of 7 w1) = None ∧
  session 7 w2 = None ∧
  ∀ data env',
    let r := button_handler (upd (button_event alice data env')) env' w2 in
    r.1 = Ok tt ∧
    outbox r.2 = outbox w2 ++
      [(7%Z, answer);
       (7%Z, edit_message_text
               "Nothing to store – please send a new message first.")] ∧
    diary_messages r.2 = diary_messages w2 ∧
    user_data r.2 = user_data w2 ∧
    heap r.2 = heap w2 ∧
    session 7 r.2 = None.
Proof.
  assert (Forall (λ e, ¬ begins 7 e) after_done) as Hevs.
  { repeat constructor; intros [Hid [t Ht]]; discriminate. }
  split; [exact Hevs|].
  apply (no_session_after_done alice hello
           {| p_text := "Hello world"; p_ts := 1000 |} {["Tag2"]} fine
           after_done); [vm_compute; reflexivity|reflexivity|exact Hevs].
Defined.

Lemma failed_insert_keeps_session_witness :
  let p := {| p_text := "Hello world"; p_ts := 1000 |} in
  let r := button_handler (upd (done_event alice outage)) outage hello in
  let w' := process hello (done_event alice outage) in
  insert_ok outage = false ∧
  r.1 = Raise PersistenceError ∧
  session 7 w' = Some (p, {["Tag2"]}) ∧
  user_data w' = user_data hello ∧
  diary_messages w' = diary_messages hello ∧
  log w' = log hello ++ [PersistenceError] ∧
  ∀ env', insert_ok env' = true →
    diary_messages (process w' (done_event alice env'))
    = diary_messages hello ++
      [{| telegram_id := 7; ts := 1000; row_text := "Hello world";
          tags := elements ({["Tag2"]} : gset string) |}].
Proof.
  split; [reflexivity|].
  apply (failed_insert_keeps_session alice hello
           {| p_text := "Hello world"; p_ts := 1000 |} {["Tag2"]} outage);
    [vm_compute; reflexivity|reflexivity].
Defined.

Lemma begin_replaces_session_witness :
  let b := text_event alice "Second thoughts" fine in
  let new := {| p_text := "Second thoughts"; p_ts := 1000 |} in
  begin_text b = Some "Second thoughts" ∧
  (dispatch (kind b) (upd b) (outside b) hello).1 = Ok tt ∧
  session 7 (process hello b) = Some (new, ∅) ∧
  log (process hello b) = log hello ∧
  diary_messages (process hello b) = diary_messages hello ∧
  ∀ (user : User) (b1 : Event) (presses : list (string * Outside)),
    id user = 7%Z →
    let w' := run (process hello b1) (toggle_events user presses) in
    (dispatch (kind b) (upd b) (outside b) w').1 = Ok tt ∧
    session 7 (process w' b) = Some (new, ∅).
Proof.
  split; [reflexivity|].
  apply (begin_replaces_session hello
           (text_event alice "Second thoughts" fine) "Second thoughts").
  reflexivity.
Defined.

(** The keyboard of the program when Tag2 is selected, and the rows a
    catalogue of five keys would be cut into. *)
Example keyboard_with_tag2 :
  (build_keyboard 0%nat one_set).1
  = Ok [[{| text := "Tag1"; callback_data := "tag:Tag1" |};
         {| text := "✅ Tag2"; callback_data := "tag:Tag2" |}];
        [{| text := "Tag3"; callback_data := "tag:Tag3" |};
         {| text := "Tag4"; callback_data := "tag:Tag4" |}];
        [{| text := "💾 Done"; callback_data := "done" |}]]
  ∧ rows_of_two ["a"; "b"; "c"; "d"; "e"] = [["a"; "b"]; ["c"; "d"]; ["e"]].
Proof. split; [vm_compute|]; reflexivity. Qed.

Lemma keyboard_layout_witness :
  heap one_set !! 0%nat = Some {["Tag2"]} ∧
  ∃ rows,
    (build_keyboard 0%nat one_set).1 = Ok (rows ++ [[done_button]]) ∧
    done_button = {| text := "💾 Done"; callback_data := "done" |} ∧
    length rows = Nat.div2 (S (length (TAG_KEYS one_set))) ∧
    (∀ i, (i < length rows)%nat →
       rows !! i = Some (button_of {["Tag2"]} <$>
                           take 2 (drop (2 * i) (TAG_KEYS one_set)))) ∧
    concat rows = button_of {["Tag2"]} <$> TAG_KEYS one_set ∧
    ∀ key,
      callback_data (button_of {["Tag2"]} key) = "tag:" +:+ key ∧
      (key ∈ ({["Tag2"]} : gset string) →
       text (button_of {["Tag2"]} key) = "✅ " +:+ Py.replace "_" " " key) ∧
      (key ∉ ({["Tag2"]} : gset string) →
       text (button_of {["Tag2"]} key) = Py.replace "_" " " key).
Proof.
  split; [reflexivity|].
  apply (keyboard_layout one_set 0%nat {["Tag2"]}). reflexivity.
Defined.

Lemma build_keyboard_pure_witness :
  TAG_KEYS one_set = TAG_KEYS hello ∧
  heap one_set !! 0%nat = Some {["Tag2"]} ∧
  heap hello !! 0%nat = Some {["Tag2"]} ∧
  ∃ kb,
    build_keyboard 0%nat one_set = (Ok kb, one_set) ∧
    build_keyboard 0%nat hello = (Ok kb, hello) ∧
    (first ← build_keyboard 0%nat; second ← build_keyboard 0%nat;
     mret (first, second)) one_set = (Ok (kb, kb), one_set).
Proof.
  split; [reflexivity|]. split; [reflexivity|].
  split; [vm_compute; reflexivity|].
  apply (build_keyboard_pure one_set hello 0%nat 0%nat {["Tag2"]});
    [reflexivity|reflexivity|vm_compute; reflexivity].
Defined.

Lemma audio_session_text_witness :
  let r := handle_audio voice fine initial_world in
  let as_text := {| effective_user := effective_user voice;
                    message_text := Py.strip "  Hello world  ";
                    query_data := query_data voice |} in
  let r' := handle_text as_text fine initial_world in
  whisper fine = Some "  Hello world  " ∧
  r.1 = Ok tt ∧
  session 7 r.2
    = Some ({| p_text := Py.strip "  Hello world  "; p_ts := utcnow fine |}, ∅) ∧
  (∃ pre post, all_space pre ∧ all_space post ∧
     Py.chars "  Hello world  "
     = pre ++ Py.chars (Py.strip "  Hello world  ") ++ post) ∧
  (∀ c, c ∈ Py.whitespace →
     ¬ c `prefix_of` Py.chars (Py.strip "  Hello world  ") ∧
     ¬ c `suffix_of` Py.chars (Py.strip "  Hello world  ")) ∧
  (all_space (Py.chars "  Hello world  ") → Py.strip "  Hello world  " = "") ∧
  ("  Hello world  " = "" →
   session 7 r.2 = Some ({| p_text := ""; p_ts := utcnow fine |}, ∅)) ∧
  r'.1 = Ok tt ∧
  user_data r.2 = user_data r'.2 ∧
  heap r.2 = heap r'.2 ∧
  diary_messages r.2 = diary_messages r'.2 ∧
  ∃ body body' kb,
    outbox r.2 = outbox initial_world ++ [(7%Z, reply_text body kb "Markdown")] ∧
    outbox r'.2 = outbox initial_world ++ [(7%Z, reply_text body' kb "Markdown")].
Proof.
  split; [reflexivity|].
  apply (audio_session_text initial_world voice fine "  Hello world  ").
  reflexivity.
Defined.

(** A voice message in which nothing is heard still opens a session, with
    the empty text. *)
Example silence_opens_session :
  let silent := {| utcnow := 3000; whisper := Some ""; insert_ok := true |} in
  session 7 (process initial_world (audio_event alice silent))
  = Some ({| p_text := ""; p_ts := 3000 |}, ∅).
Proof. vm_compute. reflexivity. Qed.

(** * Further properties of the program *)

(** ** Exceptions *)


(** ** What no update undoes *)

#[global] Instance grows_preorder : PreOrder grows.
Proof.
  split.
  - by intros w.
  - intros w1 w2 w3 (? & ? & ?) (? & ? & ?). split_and!; by etrans.
Qed.

Lemma new_set_grows : preserves grows new_set.
Proof. by intros w. Qed.

Lemma deref_grows l : preserves grows (deref l).
Proof. intros w. unfold deref. by destruct (heap w !! l). Qed.

Ltac frame_grows :=
  unfold set_in, set_add, set_remove, list_of_set, has_pending_message,
    set_pending_message, set_selected_tags, get_pending_message,
    get_selected_tags, clear, update_dict, call, store_message, transcribe,
    error_handler;
  frame;
  try first [ apply new_set_grows | apply deref_grows
            | by (split_and!; simpl; try done; by apply prefix_app_r) ].

Lemma build_keyboard_grows l : preserves grows (build_keyboard l).
Proof. unfold build_keyboard. frame_grows. Qed.

Lemma dispatch_grows k update env : preserves grows (dispatch k update env).
Proof.
  destruct k; simpl.
  - unfold handle_text. frame_grows. all: apply build_keyboard_grows.
  - frame_grows.
  - unfold handle_audio. frame_grows. all: apply build_keyboard_grows.
  - unfold button_handler. frame_grows. all: apply build_keyboard_grows.
Qed.

Lemma process_grows w e : grows w (process w e).
Proof.
  unfold process. pose proof (dispatch_grows (kind e) (upd e) (outside e) w) as H.
  destruct (dispatch _ _ _ w) as [[[]|exn] w']; [done|].
  etrans; [exact H|]. simpl. split_and!; simpl; try done.
  by apply prefix_app_r.
Qed.

(** From any state and through any updates, rows of [diary_messages] are
    only added at the end: none is removed, changed or reordered.  The
    same holds for the Bot API calls and the log, and the catalogue stays
    what it was. *)
Theorem run_only_appends (w : World) (evs : list Event) :
  diary_messages w `prefix_of` diary_messages (run w evs) ∧
  outbox w `prefix_of` outbox (run w evs) ∧
  log w `prefix_of` log (run w evs) ∧
  TAG_KEYS (run w evs) = TAG_KEYS w.
Proof.
  revert w. induction evs as [|e evs IH]; intros w; [done|].
  change (run w (e :: evs)) with (run (process w e) evs).
  destruct (IH (process w e)) as (Hd & Ho & Hl & ->).
  destruct (process_grows w e) as (Hd' & Ho' & Hl').
  destruct (process_only w e) as [-> _].
  split_and!; try done; by etrans.
Qed.

(** ** Users and their dictionaries *)

(** An update of one user changes the session of no other user: neither
    the pending entry nor the selected tags, whether the other user has a
    session or not. *)
Theorem other_user_leaves_session (w : World) (e : Event) (uid : Z) :
  reachable w →
  id (effective_user (upd e)) ≠ uid →
  session uid (process w e) = session uid w.
Proof.
  intros Hw Hu.
  pose proof (reachable_well_formed w Hw) as Hwf.
  destruct (session uid w) as [[p sel]|] eqn:Hs.
  - apply (step_session_other w e); try done.
    + by apply reachable_separated.
    + by apply process_step.
  - assert (pending_message (dict_of uid w) = None) as Hp.
    { destruct (pending_message (dict_of uid w)) as [p|] eqn:Hp; [|done].
      destruct (well_formed_session w uid p Hwf Hp) as [sel Hs']. congruence. }
    destruct (process_only w e) as [_ Hother].
    unfold session, dict_of in *. by rewrite (Hother uid), Hp by done.
Qed.

Lemma paired_insert (m : gmap Z UserData) u d uid :
  (is_Some (pending_message d) ↔ is_Some (selected_tags d)) →
  (is_Some (pending_message (default empty_dict (m !! uid)))
   ↔ is_Some (selected_tags (default empty_dict (m !! uid)))) →
  is_Some (pending_message (default empty_dict (<[u:=d]> m !! uid)))
  ↔ is_Some (selected_tags (default empty_dict (<[u:=d]> m !! uid))).
Proof.
  intros Hd Hm. destruct (decide (u = uid)) as [->|Hu].
  - by rewrite lookup_insert_eq.
  - by rewrite lookup_insert_ne.
Qed.

Lemma step_paired w e w' :
  (∀ uid, is_Some (pending_message (dict_of uid w))
          ↔ is_Some (selected_tags (dict_of uid w))) →
  step w e w' →
  ∀ uid, is_Some (pending_message (dict_of uid w'))
         ↔ is_Some (selected_tags (dict_of uid w')).
Proof.
  intros IH Hstep uid. unfold dict_of in *.
  inversion Hstep as [Hk|Hk|t Hk Ht|Hk Ht|Hk Hp|tag p sel Hk Hs Hd
                     |p sel Hk Hs Hd Hok|p sel Hk Hs Hd Hok
                     |p sel Hk Hs Htag Hd]; subst; simpl; try apply IH;
    apply paired_insert; try apply IH; simpl.
  - split; intros _; by eexists.
  - split; intros _; by eexists.
  - unfold session in Hs.
    destruct (pending_message (dict_of _ w)) eqn:Hp; [|done].
    split; intros _; by eexists.
  - split; intros [? ?]; done.
Qed.

Lemma reachable_paired w uid :
  reachable w →
  is_Some (pending_message (dict_of uid w))
  ↔ is_Some (selected_tags (dict_of uid w)).
Proof.
  intros Hw. revert uid. revert w Hw.
  apply (reachable_ind (λ w, ∀ uid, _ ↔ _)).
  - intros uid. unfold dict_of. simpl. rewrite lookup_empty. simpl.
    split; intros [? ?]; done.
  - intros w e Hw IH. apply (step_paired w e); [done|].
    by apply process_step, reachable_well_formed.
Qed.

(** In a reachable state the keys ["pending_message"] and
    ["selected_tags"] are in a dictionary together or not at all: the
    handlers set both and [clear()] removes both.  So wherever
    [button_handler] gets past its test for a pending message, the set it
    works on is the stored one, never the default of [get]. *)
Theorem keys_come_together (w : World) (uid : Z) :
  reachable w →
  (is_Some (pending_message (dict_of uid w))
   ↔ is_Some (selected_tags (dict_of uid w))) ∧
  ∀ dflt, is_Some (pending_message (dict_of uid w)) →
    ∃ l, (get_selected_tags uid dflt w).1 = Ok l ∧
         selected_tags (dict_of uid w) = Some l ∧ is_Some (heap w !! l).
Proof.
  intros Hw. pose proof (reachable_paired w uid Hw) as Hpaired.
  split; [done|]. intros dflt Hp.
  destruct (proj1 Hpaired Hp) as [l Hl]. exists l.
  unfold get_selected_tags. erewrite bind_ok; last done. simpl.
  rewrite Hl. split_and!; try done.
  unfold dict_of in Hl.
  destruct (user_data w !! uid) as [d|] eqn:Hd; [|done].
  by apply (reachable_well_formed w Hw uid d l).
Qed.

(** ** What the user is told *)




(** ** Buttons and the data they carry *)

Lemma keyboard_buttons keys sel :
  concat (keyboard_of keys sel) = (button_of sel <$> keys) ++ [done_button].
Proof.
  unfold keyboard_of.
  by rewrite concat_app, concat_fmap_rows, rows_of_two_concat.
Qed.

(** What [build_keyboard] writes on a button, [button_handler] reads back.
    The data of the button of [key] starts with "tag:" and its part after
    the first colon is [key], also for a key with colons in it; the data of
    the "Done" button is no tag's.  With the keys of a dictionary, which
    are distinct, no two buttons of a keyboard carry the same data, so a
    press tells which button it was. *)
Theorem buttons_identify_tags (w : World) (l : loc) (sel : gset string)
    (user : User) (env : Outside) :
  heap w !! l = Some sel →
  NoDup (TAG_KEYS w) →
  ∃ kb,
    (build_keyboard l w).1 = Ok kb ∧
    NoDup (callback_data <$> concat kb) ∧
    ∀ b, b ∈ concat kb →
      (b = done_button ∧ callback_data b = "done" ∧
       press (id user) (button_event user (callback_data b) env) = None) ∨
      (∃ key, key ∈ TAG_KEYS w ∧ b = button_of sel key ∧
              callback_data b ≠ "done" ∧
              press (id user) (button_event user (callback_data b) env)
              = Some key).
Proof.
  intros Hl Hnodup. rewrite (build_keyboard_run l w sel Hl).
  eexists. split; [done|]. rewrite keyboard_buttons. split.
  - rewrite fmap_app, <-list_fmap_compose. apply NoDup_app. split_and!.
    + assert (Inj (=) (=) (callback_data ∘ button_of sel)) as Hinj.
      { intros k1 k2 Hk. simpl in Hk.
        by apply (inj (String.app "tag:")) in Hk. }
      by apply (NoDup_fmap_2 _).
    + intros d (k & -> & _)%list_elem_of_fmap [Hd|?%elem_of_nil]%elem_of_cons;
        [|done]. discriminate Hd.
    + apply NoDup_singleton.
  - intros b [(key & -> & Hkey)%list_elem_of_fmap|Hb]%elem_of_app.
    + right. exists key. split_and!; try done.
      apply (press_toggle_event user key env).
    + apply list_elem_of_singleton in Hb as ->. left.
      split; [done|]. split; [done|]. unfold press, button_event.
      cbn [kind upd query_data effective_user callback_data done_button].
      by rewrite bool_decide_true.
Qed.

(** ** Presses of tag buttons *)

Lemma run_toggle_events user presses w p sel :
  session (id user) w = Some (p, sel) →
  session (id user) (run w (toggle_events user presses))
  = Some (p, foldl (λ s t, toggle t s) sel presses.*1).
Proof.
  revert w sel. induction presses as [|[tag env] presses IH]; intros w sel Hs.
  - done.
  - change (run w (toggle_events user ((tag, env) :: presses)))
      with (run (process w (toggle_event user tag env))
              (toggle_events user presses)).
    rewrite (process_toggle _ _ _ _ _ _ Hs).
    by rewrite (IH _ _ (toggled_session user tag p sel w Hs)).
Qed.

(** Only the parity of the presses of each tag matters.  Two runs of
    presses on the same session that agree, tag by tag, on whether the
    number of presses is odd leave the same session: the order of the
    presses is of no account, and two presses of one tag cancel. *)
Theorem presses_matter_by_parity (user : User) (w : World) (p : Pending)
    (sel : gset string) (presses1 presses2 : list (string * Outside)) :
  session (id user) w = Some (p, sel) →
  (∀ x, Nat.odd (count x presses1.*1) = Nat.odd (count x presses2.*1)) →
  session (id user) (run w (toggle_events user presses1))
  = session (id user) (run w (toggle_events user presses2)).
Proof.
  intros Hs Hparity.
  rewrite !(run_toggle_events user _ w p sel Hs). do 2 f_equal.
  apply set_eq. intros x. by rewrite !elem_of_toggles, Hparity.
Qed.

(** ** Buttons that are neither a tag nor "Done" *)

(** Data that neither starts with "tag:" nor equals "done" falls through
    both branches of [button_handler]: the query is answered and that is
    all.  The session, the dictionaries and the table are as before, and
    the message is not edited. *)
Theorem unknown_button_changes_nothing (user : User) (w : World) (p : Pending)
    (sel : gset string) (data : string) (env : Outside) :
  session (id user) w = Some (p, sel) →
  Py.startswith "tag:" data = false →
  data ≠ "done" →
  let r := button_handler (upd (button_event user data env)) env w in
  r.1 = Ok tt ∧
  session (id user) r.2 = Some (p, sel) ∧
  user_data r.2 = user_data w ∧
  diary_messages r.2 = diary_messages w ∧
  outbox r.2 = outbox w ++ [(id user, answer)] ∧
  log r.2 = log w.
Proof.
  intros Hs Htag Hdone r. subst r.
  assert (pending_message (dict_of (id user) w) = Some p) as Hp.
  { unfold session in Hs. destruct (pending_message _); [|done]. simpl in Hs.
    destruct (selected_set _ _); [|done]. by injection Hs as -> _. }
  rewrite (button_other_run (upd (button_event user data env)) env w p Hp Htag
             Hdone).
  split_and!; try done. by apply (answered_session user).
Qed.

(** ** A voice message that is not transcribed *)

(** When the transcription raises, [handle_audio] has changed nothing
    yet: no dictionary, no set, no row, and no reply is sent; the
    exception is logged.  A session the user had before is still there,
    unlike after a voice message that is transcribed. *)
Theorem failed_transcription_changes_nothing (w : World) (update : Update)
    (env : Outside) :
  whisper env = None →
  let e := {| kind := audio_message; upd := update; outside := env |} in
  handle_audio update env w = (Raise TranscriptionError, w) ∧
  user_data (process w e) = user_data w ∧
  heap (process w e) = heap w ∧
  diary_messages (process w e) = diary_messages w ∧
  outbox (process w e) = outbox w ∧
  log (process w e) = log w ++ [TranscriptionError] ∧
  ∀ uid, session uid (process w e) = session uid w.
Proof.
  intros Ht e. subst e. unfold process. simpl.
  by rewrite (handle_audio_fails update env w Ht).
Qed.

(** ** Text that needs no trimming *)

Lemma drop_one_no_prefix pats l :
  (∀ p, p ∈ pats → ¬ p `prefix_of` l) → Py.drop_one pats l = None.
Proof.
  intros H. destruct (Py.drop_one pats l) as [r|] eqn:Hr; [|done].
  apply drop_one_Some in Hr as (p & Hp & ->).
  destruct (H p Hp). by exists r.
Qed.

Lemma lstrip_chars_fixed pats l :
  (∀ p, p ∈ pats → ¬ p `prefix_of` l) → Py.lstrip_chars pats l = l.
Proof.
  intros H%drop_one_no_prefix. unfold Py.lstrip_chars.
  destruct (length l); simpl; [done|]. by rewrite H.
Qed.

(** A transcription with no whitespace character at either end is the
    pending text as it is, and trimming what was trimmed changes nothing
    more. *)
Theorem trimmed_transcription_kept (w : World) (update : Update)
    (env : Outside) (t : string) :
  whisper env = Some t →
  (∀ c, c ∈ Py.whitespace →
     ¬ c `prefix_of` Py.chars t ∧ ¬ c `suffix_of` Py.chars t) →
  session (id (effective_user update)) (handle_audio update env w).2
    = Some ({| p_text := t; p_ts := utcnow env |}, ∅) ∧
  Py.strip t = t ∧
  ∀ s, Py.strip (Py.strip s) = Py.strip s.
Proof.
  intros Ht Hends.
  assert (∀ s, (∀ c, c ∈ Py.whitespace →
                  ¬ c `prefix_of` Py.chars s ∧ ¬ c `suffix_of` Py.chars s) →
               Py.strip s = s) as Hfixed.
  { intros s Hs. unfold Py.strip.
    rewrite (lstrip_chars_fixed Py.whitespace) by (intros c Hc; by apply Hs).
    rewrite lstrip_chars_fixed.
    - rewrite reverse_involutive. apply String.string_of_list_ascii_of_string.
    - intros q (c & -> & Hc)%list_elem_of_fmap [k Hk].
      destruct (proj2 (Hs c Hc)). exists (reverse k).
      by rewrite <-(reverse_involutive (Py.chars s)), Hk, reverse_app,
        reverse_involutive. }
  split_and!.
  - rewrite (handle_audio_run update env w t Ht), (Hfixed t Hends).
    apply opened_session.
  - by apply Hfixed.
  - intros s. apply Hfixed. intros c Hc.
    destruct (strip_spec s) as (_ & _ & _ & _ & _ & Hl & Hr).
    split; [by apply Hl|by apply Hr].
Qed.

(** ** Start-up *)

(** The module gets past its check exactly when the three variables are
    set to strings that are not empty: a variable set to the empty string
    stops it like one that is not set.  It stops there before it connects
    to the database, and a process that starts, starts with the four tags,
    no session, and nothing sent or stored. *)
Theorem boot_needs_all_three (environ : gmap string string)
    (connects : string → bool) :
  ((∃ message, boot environ connects = RuntimeError message)
   ↔ ∃ k, k ∈ ["BOT_TOKEN"; "OPENAI_API_KEY"; "SUPABASE_DB_URL"] ∧
          (environ !! k = None ∨ environ !! k = Some "")) ∧
  (∀ message connects', boot environ connects = RuntimeError message →
     boot environ connects' = RuntimeError message) ∧
  (∀ w, boot environ connects = Booted w →
     w = initial_world ∧
     ∃ url, environ !! "SUPABASE_DB_URL" = Some url ∧ url ≠ "" ∧
            connects url = true).
Proof.
  unfold boot.
  assert (∀ v : option string, truthy v = false ↔ v = None ∨ v = Some "")
    as Htruthy.
  { intros [s|]; simpl; [|split; [by left|done]].
    case_bool_decide as Hs; simpl.
    - subst. split; [by right|done].
    - split; [done|]. by intros [?|[= ?]]. }
  destruct (forallb truthy _) eqn:Hall; simpl.
  - simpl in Hall. apply andb_true_iff in Hall as [H1 Hall].
    apply andb_true_iff in Hall as [H2 Hall].
    apply andb_true_iff in Hall as [H3 _].
    split_and!.
    + split.
      * intros [m Hm]. by destruct (connects _).
      * intros (k & Hk & Hmiss%Htruthy).
        repeat (apply elem_of_cons in Hk as [->|Hk]); try congruence.
        by apply elem_of_nil in Hk.
    + intros m c' Hm. by destruct (connects _).
    + intros w Hw.
      destruct (environ !! "SUPABASE_DB_URL") as [url|] eqn:Hurl; [|done].
      simpl in *. destruct (connects url) eqn:Hc; [|done].
      injection Hw as <-. split; [done|]. exists url. split_and!; try done.
      intros ->. by rewrite bool_decide_true in H3.
  - split_and!; [|done|done]. split; [intros _|by eexists].
    simpl in Hall. apply andb_false_iff in Hall as [H1|Hall];
      [|apply andb_false_iff in Hall as [H2|Hall];
        [|apply andb_false_iff in Hall as [H3|?]; [|done]]].
    + exists "BOT_TOKEN". split; [by left|by apply Htruthy].
    + exists "OPENAI_API_KEY". split; [by right; left|by apply Htruthy].
    + exists "SUPABASE_DB_URL". split; [by do 2 right; left|by apply Htruthy].
Qed.

(** ** The further properties on a run of the program *)

Lemma reachable_hello : reachable hello.
Proof. by eexists. Qed.


Lemma other_user_leaves_session_witness :
  reachable hello ∧
  id (effective_user (upd (text_event bob "hi" fine))) ≠ 7%Z ∧
  session 7 (process hello (text_event bob "hi" fine)) = session 7 hello.
Proof.
  split; [exact reachable_hello|]. split; [discriminate|].
  apply (other_user_leaves_session hello (text_event bob "hi" fine) 7);
    [exact reachable_hello|discriminate].
Defined.

Lemma keys_come_together_witness :
  reachable hello ∧
  (is_Some (pending_message (dict_of 7 hello))
   ↔ is_Some (selected_tags (dict_of 7 hello))) ∧
  ∀ dflt, is_Some (pending_message (dict_of 7 hello)) →
    ∃ l, (get_selected_tags 7 dflt hello).1 = Ok l ∧
         selected_tags (dict_of 7 hello) = Some l ∧ is_Some (heap hello !! l).
Proof.
  split; [exact reachable_hello|].
  apply (keys_come_together hello 7). exact reachable_hello.
Defined.



Lemma buttons_identify_tags_witness :
  heap one_set !! 0%nat = Some {["Tag2"]} ∧
  NoDup (TAG_KEYS one_set) ∧
  ∃ kb,
    (build_keyboard 0%nat one_set).1 = Ok kb ∧
    NoDup (callback_data <$> concat kb) ∧
    ∀ b, b ∈ concat kb →
      (b = done_button ∧ callback_data b = "done" ∧
       press (id alice) (button_event alice (callback_data b) fine) = None) ∨
      (∃ key, key ∈ TAG_KEYS one_set ∧ b = button_of {["Tag2"]} key ∧
              callback_data b ≠ "done" ∧
              press (id alice) (button_event alice (callback_data b) fine)
              = Some key).
Proof.
  assert (NoDup (TAG_KEYS one_set)) as Hnodup.
  { apply (bool_decide_unpack _). vm_compute. exact I. }
  split; [reflexivity|]. split; [exact Hnodup|].
  apply (buttons_identify_tags one_set 0%nat {["Tag2"]} alice fine);
    [reflexivity|exact Hnodup].
Defined.

Lemma presses_matter_by_parity_witness :
  let p := {| p_text := "Hello world"; p_ts := 1000 |} in
  let presses1 := [("Tag1", fine); ("Tag3", outage); ("Tag1", fine)] in
  let presses2 := [("Tag3", fine)] in
  session 7 hello = Some (p, {["Tag2"]}) ∧
  (∀ x, Nat.odd (count x presses1.*1) = Nat.odd (count x presses2.*1)) ∧
  session 7 (run hello (toggle_events alice presses1))
  = session 7 (run hello (toggle_events alice presses2)).
Proof.
  assert (∀ x, Nat.odd (count x [("Tag1", fine); ("Tag3", outage);
                                 ("Tag1", fine)].*1)
               = Nat.odd (count x [("Tag3", fine)].*1)) as Hparity.
  { intros x. simpl. rewrite !count_cons.
    destruct (decide ("Tag1" = x)); destruct (decide ("Tag3" = x)); done. }
  split; [vm_compute; reflexivity|]. split; [exact Hparity|].
  apply (presses_matter_by_parity alice hello
           {| p_text := "Hello world"; p_ts := 1000 |} {["Tag2"]}
           [("Tag1", fine); ("Tag3", outage); ("Tag1", fine)]
           [("Tag3", fine)]); [vm_compute; reflexivity|exact Hparity].
Defined.

Lemma unknown_button_changes_nothing_witness :
  let p := {| p_text := "Hello world"; p_ts := 1000 |} in
  let r := button_handler (upd (button_event alice "Tag1" fine)) fine hello in
  session 7 hello = Some (p, {["Tag2"]}) ∧
  Py.startswith "tag:" "Tag1" = false ∧
  "Tag1" ≠ "done" ∧
  r.1 = Ok tt ∧
  session 7 r.2 = Some (p, {["Tag2"]}) ∧
  user_data r.2 = user_data hello ∧
  diary_messages r.2 = diary_messages hello ∧
  outbox r.2 = outbox hello ++ [(7%Z, answer)] ∧
  log r.2 = log hello.
Proof.
  split; [vm_compute; reflexivity|]. split; [reflexivity|].
  split; [discriminate|].
  apply (unknown_button_changes_nothing alice hello
           {| p_text := "Hello world"; p_ts := 1000 |} {["Tag2"]} "Tag1" fine);
    [vm_compute; reflexivity|reflexivity|discriminate].
Defined.

Lemma failed_transcription_changes_nothing_witness :
  let e := {| kind := audio_message; upd := voice; outside := outage |} in
  whisper outage = None ∧
  handle_audio voice outage hello = (Raise TranscriptionError, hello) ∧
  user_data (process hello e) = user_data hello ∧
  heap (process hello e) = heap hello ∧
  diary_messages (process hello e) = diary_messages hello ∧
  outbox (process hello e) = outbox hello ∧
  log (process hello e) = log hello ++ [TranscriptionError] ∧
  ∀ uid, session uid (process hello e) = session uid hello.
Proof.
  split; [reflexivity|].
  apply (failed_transcription_changes_nothing hello voice outage).
  reflexivity.
Defined.

Lemma trimmed_transcription_kept_witness :
  whisper clean = Some "Hello world" ∧
  (∀ c, c ∈ Py.whitespace →
     ¬ c `prefix_of` Py.chars "Hello world" ∧
     ¬ c `suffix_of` Py.chars "Hello world") ∧
  session 7 (handle_audio voice clean initial_world).2
    = Some ({| p_text := "Hello world"; p_ts := utcnow clean |}, ∅) ∧
  Py.strip "Hello world" = "Hello world" ∧
  ∀ s, Py.strip (Py.strip s) = Py.strip s.
Proof.
  assert (∀ c, c ∈ Py.whitespace →
            ¬ c `prefix_of` Py.chars "Hello world" ∧
            ¬ c `suffix_of` Py.chars "Hello world") as Hends.
  { assert (Forall (λ c, ¬ c `prefix_of` Py.chars "Hello world" ∧
                         ¬ c `suffix_of` Py.chars "Hello world")
              Py.whitespace) as H by by_computation.
    intros c Hc. by apply (proj1 (Forall_forall _ _) H). }
  split; [reflexivity|]. split; [exact Hends|].
  apply (trimmed_transcription_kept initial_world voice clean "Hello world");
    [reflexivity|exact Hends].
Defined.

(** An empty token stops the module like a missing one, and a full
    environment starts it. *)
Example boot_cases :
  let full : gmap string string :=
    <["BOT_TOKEN":="123:abc"]> (<["OPENAI_API_KEY":="sk-1"]>
      (<["SUPABASE_DB_URL":="postgres://db"]> ∅)) in
  boot full (λ _, true) = Booted initial_world ∧
  boot full (λ _, false) = OperationalError ∧
  (∃ m, boot (<["BOT_TOKEN":=""]> full) (λ _, true) = RuntimeError m) ∧
  (∃ m, boot (delete "OPENAI_API_KEY" full) (λ _, true) = RuntimeError m).
Proof. vm_compute. split_and!; try done; by eexists. Qed.

(** ** Rows and confirmations over a whole run *)



(** ** Every button press is answered *)

(** Whatever the state, also one that no run reaches, and whatever the
    handler does next, returning or raising: the first thing
    [button_handler] does is to answer the callback query of the user who
    pressed. *)
Theorem button_always_answered (w : World) (update : Update) (env : Outside) :
  ∃ more,
    outbox (button_handler update env w).2
    = outbox w ++ (id (effective_user update), answer) :: more.
Proof.
  unfold button_handler. unfold mbind at 1. unfold M_bind.
  change (call (id (effective_user update)) answer w)
    with (Ok tt, with_outbox
                   (λ o, o ++ [(id (effective_user update), answer)]) w).
  cbv iota beta.
  match goal with
  | |- ∃ more, outbox (?m ?w1).2 = _ =>
      assert (preserves grows m) as Hm
        by (frame_grows; apply build_keyboard_grows);
      destruct (Hm w1) as (_ & [more Hmore] & _)
  end.
  exists more. rewrite Hmore. simpl. by rewrite <-app_assoc.
Qed.


(** One row, one notice, both Alice's. *)
Example hello_rows_and_notices :
  let w := process hello (done_event alice fine) in
  telegram_id <$> diary_messages w = [7%Z] ∧
  filter (λ c, is_saved_notice c = true) (outbox w) = [(7%Z, saved_notice)].
Proof. vm_compute. done. Qed.
